(** * The threaded HTTP server of demikernel, [dmtr_http_server_threaded.cc]

  A shallow embedding of the dispatch core of the server: the compute
  worker [http_work], the connection worker [tcp_work], and the supervisor
  [work_setup] / [main].  Worker loops are embedded one iteration at a
  time; every call into the datapath, the allocator and the thread
  library is appended to a trace, so that statements about ordering
  ("freed before pushed", "popped only after the push completed") are
  statements about that trace. *)

From Stdlib Require Import ZArith List Bool Lia String.
From stdpp Require Import base tactics option list numbers.
Import ListNotations.
Local Open Scope Z_scope.

(** ** Machine integers *)

Module Machine.

(** Conversion to an unsigned integer of [w] bits. *)
Definition to_unsigned (w : Z) (x : Z) : Z := x mod 2 ^ w.

(** Conversion to a signed, two's complement integer of [w] bits. *)
Definition to_signed (w : Z) (x : Z) : Z :=
  let u := to_unsigned w x in
  if u <? 2 ^ (w - 1) then u else u - 2 ^ w.

Definition to_u8 : Z -> Z := to_unsigned 8.
Definition to_u16 : Z -> Z := to_unsigned 16.
Definition to_u32 : Z -> Z := to_unsigned 32.
Definition to_u64 : Z -> Z := to_unsigned 64.
Definition to_int : Z -> Z := to_signed 32.

Definition INT_MAX : Z := 2 ^ 31 - 1.

(** [errno] values the connection worker tolerates (Linux numbering). *)
Definition ECONNABORTED : Z := 103.
Definition ECONNRESET : Z := 104.

End Machine.
Import Machine.

(** ** Data *)

Module Types.

(** Queue descriptors are [int]; addresses are numbers, [NULL] is 0. *)
Definition qd := Z.
Definition ptr := Z.
Definition NULL : ptr := 0.

Inductive opcode := DMTR_OPC_PUSH | DMTR_OPC_POP | DMTR_OPC_ACCEPT.

Definition opcode_eqb (a b : opcode) : bool :=
  match a, b with
  | DMTR_OPC_PUSH, DMTR_OPC_PUSH
  | DMTR_OPC_POP, DMTR_OPC_POP
  | DMTR_OPC_ACCEPT, DMTR_OPC_ACCEPT => true
  | _, _ => false
  end.

(** [dmtr_sgaseg_t]: a buffer and its length ([uint32_t]). *)
Record sgaseg := { sgaseg_buf : ptr; sgaseg_len : Z }.

(** [dmtr_sgarray_t].  The server only touches [sga_segs[0]] and
    [sga_segs[1]], which are the two segment fields here. *)
Record sgarray := {
  sga_buf : ptr;
  sga_numsegs : Z;
  sga_segs0 : sgaseg;
  sga_segs1 : sgaseg
}.

Definition set_numsegs (n : Z) (s : sgarray) : sgarray :=
  {| sga_buf := sga_buf s; sga_numsegs := n;
     sga_segs0 := sga_segs0 s; sga_segs1 := sga_segs1 s |}.
Definition set_seg0_buf (p : ptr) (s : sgarray) : sgarray :=
  {| sga_buf := sga_buf s; sga_numsegs := sga_numsegs s;
     sga_segs0 := {| sgaseg_buf := p; sgaseg_len := sgaseg_len (sga_segs0 s) |};
     sga_segs1 := sga_segs1 s |}.
Definition set_seg0_len (n : Z) (s : sgarray) : sgarray :=
  {| sga_buf := sga_buf s; sga_numsegs := sga_numsegs s;
     sga_segs0 := {| sgaseg_buf := sgaseg_buf (sga_segs0 s); sgaseg_len := n |};
     sga_segs1 := sga_segs1 s |}.
Definition set_seg1_len (n : Z) (s : sgarray) : sgarray :=
  {| sga_buf := sga_buf s; sga_numsegs := sga_numsegs s;
     sga_segs0 := sga_segs0 s;
     sga_segs1 := {| sgaseg_buf := sgaseg_buf (sga_segs1 s); sgaseg_len := n |} |}.

(** A completion token.  The code sees an opaque [dmtr_qtoken_t]; the
    operation and the descriptor it was submitted for are kept beside the
    number, since the datapath reports them back in [qr_opcode] and
    [qr_qd] when the token completes. *)
Record qtoken := { tk_id : Z; tk_op : opcode; tk_qd : qd }.

(** [struct sockaddr_in], address in host byte order. *)
Record sockaddr_in := { sin_addr : Z; sin_port : Z }.

(** [class Worker]. *)
Record Worker := { in_qfd : qd; out_qfd : qd; me : Z }.

Inductive tcp_filters := RR | HTTP_REQ_TYPE | ONE_TO_ONE.

Definition tcp_filters_eqb (a b : tcp_filters) : bool :=
  match a, b with
  | RR, RR | HTTP_REQ_TYPE, HTTP_REQ_TYPE | ONE_TO_ONE, ONE_TO_ONE => true
  | _, _ => false
  end.

(** [struct tcp_worker_args].  [filter_f] is always [filter_http_req]; the
    thread handle [me] is kept in [worker_threads]. *)
Record tcp_worker_args := {
  filter : tcp_filters;
  saddr : sockaddr_in;
  whoami : Z;          (* uint8_t *)
  split : bool
}.

End Types.
Import Types.

(** ** The datapath facade, the allocator and the thread library *)

Module Dmtr.

(** What a new thread runs: [tcp_work] on its arguments, or [http_work] on
    the queues of its [Worker]. *)
Inductive thread_body :=
| tcp_thread (args : tcp_worker_args)
| http_thread (in_q out_q : qd).

(** Calls that leave the worker, in program order. *)
Inductive call :=
| c_malloc (p : ptr)
| c_free (p : ptr)
| c_init
| c_socket (q : qd)
| c_lqds_push (q : qd)
| c_bind (q : qd) (a : sockaddr_in)
| c_listen (q : qd) (backlog : Z)
| c_queue (q : qd)
| c_queue_failed (status : Z)
| c_accept (t : qtoken)
| c_pop (t : qtoken)
| c_push (t : qtoken) (s : sgarray)
| c_wait (t : qtoken)
| c_wait_any (ts : list qtoken)
| c_close (q : qd)
| c_build (regex : bool) (url : ptr) (response : ptr)
| c_pthread_create (tid : Z) (b : thread_body)
| c_pin (tid : Z) (cpuset : option Z)
| c_sigmask (block : bool)
| c_signal
| c_join (tid : Z).

(** What the datapath and the thread library hand out next, and the
    calls made so far. *)
Record world := {
  next_token : Z;
  next_qd : qd;
  next_tid : Z;
  trace : list call
}.

(** How a piece of code ends: normally, in [exit(code)], in a failed
    [assert], in undefined behaviour (an index out of range, a
    remainder by zero, a signed overflow), or not at all, in a call that
    does not return. *)
Inductive outcome (A : Type) :=
| Done (a : A) (w : world)
| Exit (code : Z) (w : world)
| AssertFail (w : world)
| Undefined (w : world)
| Blocked (w : world).
Arguments Done {A}.
Arguments Exit {A}.
Arguments AssertFail {A}.
Arguments Undefined {A}.
Arguments Blocked {A}.

Definition M (A : Type) := world -> outcome A.

Definition ret {A} (a : A) : M A := fun w => Done a w.
Definition bind {A B} (m : M A) (f : A -> M B) : M B :=
  fun w => match m w with
           | Done a w' => f a w'
           | Exit c w' => Exit c w'
           | AssertFail w' => AssertFail w'
           | Undefined w' => Undefined w'
           | Blocked w' => Blocked w'
           end.

Declare Scope dmtr_scope.
Delimit Scope dmtr_scope with dmtr.
Notation "x <- c1 ;; c2" := (bind c1 (fun x => c2))
  (at level 100, c1 at next level, right associativity) : dmtr_scope.
Notation "c1 ;;; c2" := (bind c1 (fun _ => c2))
  (at level 100, right associativity) : dmtr_scope.
Local Open Scope dmtr_scope.

Definition emit (c : call) : M unit :=
  fun w => Done tt {| next_token := next_token w; next_qd := next_qd w;
                      next_tid := next_tid w; trace := trace w ++ [c] |}.

Definition exit {A} (code : Z) : M A := fun w => Exit code w.
Definition undefined {A} : M A := fun w => Undefined w.
Definition blocked {A} : M A := fun w => Blocked w.
Definition assert (b : bool) : M unit :=
  fun w => if b then Done tt w else AssertFail w.

(** Modelled from the spec: the datapath facade ([dmtr/libos.h]) is not
    part of the sources.  "Each submission produces exactly one token": a
    fresh token for an operation [op] on descriptor [q]. *)
Definition submit (op : opcode) (q : qd) : M qtoken :=
  fun w => Done {| tk_id := next_token w; tk_op := op; tk_qd := q |}
                {| next_token := next_token w + 1; next_qd := next_qd w;
                   next_tid := next_tid w; trace := trace w |}.

(** Modelled from the spec: descriptors are "created by socket/queue/accept
    operations"; sockets and queues get the next unused one. *)
Definition fresh_qd : M qd :=
  fun w => Done (next_qd w)
                {| next_token := next_token w; next_qd := next_qd w + 1;
                   next_tid := next_tid w; trace := trace w |}.

(** [pthread_create] stores the handle of the new thread, the next unused
    one. *)
Definition fresh_tid : M Z :=
  fun w => Done (next_tid w)
                {| next_token := next_token w; next_qd := next_qd w;
                   next_tid := next_tid w + 1; trace := trace w |}.

(** Modelled from the spec: the operations of the datapath facade, "create
    stream socket; bind/listen/accept; create in-memory queue; submit
    pop/push/accept yielding a completion token; block-wait on a single
    token; close descriptor".  Each one is recorded in the trace;
    submissions return their token. *)
Definition dmtr_socket : M qd := q <- fresh_qd ;; emit (c_socket q) ;;; ret q.
Definition dmtr_bind (q : qd) (a : sockaddr_in) : M unit := emit (c_bind q a).
Definition dmtr_listen (q : qd) (backlog : Z) : M unit := emit (c_listen q backlog).
Definition dmtr_accept (q : qd) : M qtoken :=
  t <- submit DMTR_OPC_ACCEPT q ;; emit (c_accept t) ;;; ret t.
Definition dmtr_pop (q : qd) : M qtoken :=
  t <- submit DMTR_OPC_POP q ;; emit (c_pop t) ;;; ret t.
Definition dmtr_push (q : qd) (s : sgarray) : M qtoken :=
  t <- submit DMTR_OPC_PUSH q ;; emit (c_push t s) ;;; ret t.
Definition dmtr_wait (t : qtoken) : M unit := emit (c_wait t).
Definition dmtr_close (q : qd) : M unit := emit (c_close q).
Definition free (p : ptr) : M unit := emit (c_free p).
Definition pthread_create (b : thread_body) : M Z :=
  t <- fresh_tid ;; emit (c_pthread_create t b) ;;; ret t.

(** [dmtr_init] and [dmtr_queue] return a status, 0 on success; the
    supervisor reads it.  The status the datapath answers with is an input
    of the call.  [dmtr_queue(&q)] stores the next unused descriptor in [q]
    on success and leaves [q] as it is on failure. *)
Definition dmtr_init (status : Z) : M Z := emit c_init ;;; ret status.
Definition dmtr_queue (status : Z) (q : qd) : M (Z * qd) :=
  if status =? 0 then q' <- fresh_qd ;; emit (c_queue q') ;;; ret (0, q')
  else emit (c_queue_failed status) ;;; ret (status, q).

(** [pthread_join(t, NULL)] returns once thread [t] has ended.  Every
    thread the supervisor creates runs [tcp_work] or [http_work], whose
    [while (1)] has no exit: the call does not return. *)
Definition pthread_join (t : Z) : M unit := emit (c_join t) ;;; blocked.

(** A computation that is undefined behaviour where [o] is [None]. *)
Definition defined {A} (o : option A) : M A :=
  match o with
  | Some a => ret a
  | None => undefined
  end.

(** [v[i]] for a [std::vector]; [None] out of range, where the program has
    undefined behaviour. *)
Definition vec_at {A} (v : list A) (i : Z) : option A :=
  if i <? 0 then None else v !! Z.to_nat i.

(** [v.erase(v.begin() + i)]. *)
Definition vec_erase {A} (v : list A) (i : Z) : list A := delete (Z.to_nat i) v.

(** What the datapath delivers at a wait: the status the wait returns, the
    index of the ready token (for [dmtr_wait_any]) and the value of the
    completed operation. *)
Record arrival := {
  ar_status : Z;
  ar_idx : Z;
  ar_ares_qd : qd;
  ar_sga : sgarray
}.

(** [dmtr_qresult_t]; [qr_value] is a union of the accept result and the
    scatter/gather array. *)
Record qresult := {
  qr_opcode : opcode;
  qr_qd : qd;
  qr_ares_qd : qd;
  qr_sga : sgarray
}.

Definition result_of (t : qtoken) (a : arrival) : qresult :=
  {| qr_opcode := tk_op t; qr_qd := tk_qd t;
     qr_ares_qd := ar_ares_qd a; qr_sga := ar_sga a |}.

(** [dmtr_wait(&wait_out, token)]. *)
Definition dmtr_wait_out (t : qtoken) (a : arrival) : M (Z * qresult) :=
  emit (c_wait t) ;;; ret (ar_status a, result_of t a).

(** [dmtr_wait_any(&wait_out, &idx, tokens.data(), tokens.size())]: the
    ready index designates one of the tokens waited on. *)
Definition dmtr_wait_any (ts : list qtoken) (a : arrival) : M (Z * Z * qresult) :=
  emit (c_wait_any ts) ;;;
  t <- defined (vec_at ts (ar_idx a)) ;;
  ret (ar_status a, ar_idx a, result_of t a).

(** The calls made between two worlds. *)
Definition since (w w' : world) : list call :=
  drop (length (trace w)) (trace w').

(** Projections of a trace: the pushes (descriptor and array), the
    descriptors popped, the descriptors accepted on, the addresses freed. *)
Definition pushes (tr : list call) : list (qd * sgarray) :=
  omap (fun c => match c with c_push t s => Some (tk_qd t, s) | _ => None end) tr.
Definition pops (tr : list call) : list qd :=
  omap (fun c => match c with c_pop t => Some (tk_qd t) | _ => None end) tr.
Definition accepts (tr : list call) : list qd :=
  omap (fun c => match c with c_accept t => Some (tk_qd t) | _ => None end) tr.
Definition frees (tr : list call) : list ptr :=
  omap (fun c => match c with c_free p => Some p | _ => None end) tr.

End Dmtr.
Import Dmtr.
Local Open Scope dmtr_scope.

(** ** The compute worker *)

Module Http.

Inductive parser_status := REQ_COMPLETE | REQ_ERROR | REQ_INCOMPLETE.
Inductive request_type := REGEX_REQ | FILE_REQ.

(** [struct parser_state], as far as the workers read it. *)
Record parser_state := { url : ptr; body : ptr }.

(** The parser, the classifier, the response builders and the allocator are
    external to the dispatch core.  Their answers for one request are an
    input of the iteration that handles it. *)
Record answers := {
  a_pstatus : parser_status;   (* parse_http(state, req, req_size) *)
  a_state : parser_state;      (* *state once parse_http returned *)
  a_type : request_type;       (* get_request_type(state->url) *)
  a_response : ptr;            (* response once the builder returned *)
  a_response_size : Z;         (* response_size : int *)
  a_malloc : ptr;              (* malloc(strlen(BAD_REQUEST_HEADER) + 1) *)
  a_resp_sga : sgarray;        (* the uninitialised local resp_sga *)
  a_filter : Z                 (* filter_f(&wait_out.qr_value.sga) : int *)
}.

(** [malloc(strlen(BAD_REQUEST_HEADER) + 1)]. *)
Definition malloc (x : answers) : M ptr :=
  emit (c_malloc (a_malloc x)) ;;; ret (a_malloc x).

(** [clean_state]: frees [state->url] and [state->body] where they are
    set. *)
Definition clean_state (state : parser_state) : M unit :=
  (if url state =? NULL then ret tt else free (url state)) ;;;
  (if body state =? NULL then ret tt else free (body state)).

(** [regex_work] and [file_work] call helpers that are external to this
    file ([stat], [fopen], [get_regex_value], [generate_header],
    [generate_response]) and leave the response and its size in their out
    parameters [response] and [response_len]; they are embedded as that
    effect.  The workers test the response against [NULL]. *)
Definition regex_work (u : ptr) (x : answers) : M (ptr * Z) :=
  emit (c_build true u (a_response x)) ;;; ret (a_response x, a_response_size x).
Definition file_work (u : ptr) (x : answers) : M (ptr * Z) :=
  emit (c_build false u (a_response x)) ;;; ret (a_response x, a_response_size x).

Definition build_response (state : parser_state) (x : answers) : M (ptr * Z) :=
  match a_type x with
  | REGEX_REQ => regex_work (url state) x
  | FILE_REQ => file_work (url state) x
  end.

Section WithHeader.

(** [BAD_REQUEST_HEADER] comes from a header that is not among the sources. *)
Variable BAD_REQUEST_HEADER : string.

Definition strlen (s : string) : Z := Z.of_nat (String.length s).

(** One turn of the [while (1)] loop of [http_work]. *)
Definition http_work_iter (me : Worker) (a : arrival) (x : answers) : M unit :=
  token <- dmtr_pop (in_qfd me) ;;
  r <- dmtr_wait_out token a ;;
  let '(status, wait_out) := r in
  if status =? 0 then
    assert (opcode_eqb DMTR_OPC_POP (qr_opcode wait_out)) ;;;
    assert (sga_numsegs (qr_sga wait_out) =? 2) ;;;
    let state := a_state x in
    match a_pstatus x with
    | REQ_ERROR =>
        free (sga_buf (qr_sga wait_out)) ;;;
        let resp_sga := set_numsegs 2 (a_resp_sga x) in
        p <- malloc x ;;
        let resp_sga := set_seg0_buf p resp_sga in
        let resp_sga := set_seg0_len (to_u32 (strlen BAD_REQUEST_HEADER)) resp_sga in
        let resp_sga :=
          set_seg1_len (sgaseg_len (sga_segs1 (qr_sga wait_out))) resp_sga in
        token <- dmtr_push (out_qfd me) resp_sga ;;
        dmtr_wait token ;;;
        clean_state state
    | REQ_INCOMPLETE =>
        clean_state state
    | REQ_COMPLETE =>
        r <- build_response state x ;;
        let '(response, response_size) := r in
        if response =? NULL then
          clean_state state
        else
          free (sga_buf (qr_sga wait_out)) ;;;
          let resp_sga := set_numsegs 1 (a_resp_sga x) in
          let resp_sga := set_seg0_len (to_u32 response_size) resp_sga in
          let resp_sga := set_seg0_buf response resp_sga in
          let resp_sga :=
            set_seg1_len (sgaseg_len (sga_segs1 (qr_sga wait_out))) resp_sga in
          token <- dmtr_push (out_qfd me) resp_sga ;;
          dmtr_wait token ;;;
          clean_state state
    end
  else ret tt.


End WithHeader.

End Http.
Import Http.

(** ** The connection worker *)

Module Tcp.

(** The locals of [tcp_work] that live across iterations. *)
Record tcp_locals := {
  tokens : list qtoken;
  http_q_pending : list qd;
  num_rcvd : Z;        (* int *)
  lqd : qd
}.

(** [std::find(v.begin(), v.end(), q)], as the position found. *)
Fixpoint find (v : list qd) (q : qd) : option nat :=
  match v with
  | [] => None
  | y :: rest => if y =? q then Some 0%nat else S <$> find rest q
  end.

(** Everything before the [while (1)]. *)
Definition tcp_setup (args : tcp_worker_args) : M tcp_locals :=
  lqd <- dmtr_socket ;;
  emit (c_lqds_push lqd) ;;;
  dmtr_bind lqd (saddr args) ;;;
  dmtr_listen lqd 10 ;;;
  token <- dmtr_accept lqd ;;
  ret {| tokens := [token]; http_q_pending := []; num_rcvd := 0; lqd := lqd |}.

(** [++num_rcvd] on an [int]; [None] on signed overflow. *)
Definition incr (n : Z) : option Z :=
  if n <? INT_MAX then Some (n + 1) else None.

(** [x % http_workers.size()]: the left operand is converted to [size_t],
    the result is stored in an [int]; [None] when the vector is empty. *)
Definition rem_size (x : Z) (http_workers : list Worker) : option Z :=
  let size := Z.of_nat (length http_workers) in
  if size =? 0 then None
  else Some (to_int (to_u64 x mod size)).

(** The choice of the compute worker for a new request. *)
Definition pick_worker (args : tcp_worker_args) (http_workers : list Worker)
    (num_rcvd : Z) (x : answers) : option Z :=
  match filter args with
  | RR => rem_size num_rcvd http_workers
  | HTTP_REQ_TYPE => rem_size (a_filter x) http_workers
  | ONE_TO_ONE => Some (whoami args)
  end.

Section WithHeader.

Variable BAD_REQUEST_HEADER : string.

(** A new request in split mode: hand it to a compute worker. *)
Definition forward (args : tcp_worker_args) (http_workers : list Worker)
    (tokens : list qtoken) (http_q_pending : list qd) (num_rcvd : Z) (lqd : qd)
    (wait_out : qresult) (x : answers) : M tcp_locals :=
  worker_idx <- defined (pick_worker args http_workers num_rcvd x) ;;
  let sga := set_numsegs 2 (qr_sga wait_out) in
  let sga := set_seg1_len (to_u32 (qr_qd wait_out)) sga in
  w <- defined (vec_at http_workers worker_idx) ;;
  token <- dmtr_push (in_qfd w) sga ;;
  dmtr_wait token ;;;
  token <- dmtr_pop (out_qfd w) ;;
  ret {| tokens := tokens ++ [token];
         http_q_pending := http_q_pending ++ [out_qfd w];
         num_rcvd := num_rcvd; lqd := lqd |}.

(** A new request in joined mode: do the HTTP work in place. *)
Definition serve (tokens : list qtoken) (http_q_pending : list qd)
    (num_rcvd : Z) (lqd : qd) (wait_out : qresult) (x : answers) : M tcp_locals :=
  let continue := {| tokens := tokens; http_q_pending := http_q_pending;
                     num_rcvd := num_rcvd; lqd := lqd |} in
  let state := a_state x in
  match a_pstatus x with
  | REQ_ERROR =>
      free (sga_buf (qr_sga wait_out)) ;;;
      let resp_sga := set_numsegs 1 (a_resp_sga x) in
      p <- malloc x ;;
      let resp_sga := set_seg0_buf p resp_sga in
      let resp_sga := set_seg0_len (to_u32 (strlen BAD_REQUEST_HEADER)) resp_sga in
      token <- dmtr_push (qr_qd wait_out) resp_sga ;;
      dmtr_wait token ;;;
      clean_state state ;;;
      ret continue
  | REQ_INCOMPLETE =>
      clean_state state ;;;
      ret continue
  | REQ_COMPLETE =>
      r <- build_response state x ;;
      let '(response, response_size) := r in
      if response =? NULL then
        clean_state state ;;;
        ret continue
      else
        free (sga_buf (qr_sga wait_out)) ;;;
        let resp_sga := set_numsegs 1 (a_resp_sga x) in
        let resp_sga := set_seg0_len (to_u32 response_size) resp_sga in
        let resp_sga := set_seg0_buf response resp_sga in
        token <- dmtr_push (qr_qd wait_out) resp_sga ;;
        dmtr_wait token ;;;
        free response ;;;
        clean_state state ;;;
        token <- dmtr_pop (qr_qd wait_out) ;;
        ret {| tokens := tokens ++ [token]; http_q_pending := http_q_pending;
               num_rcvd := num_rcvd; lqd := lqd |}
  end.

(** A reply of a compute worker: forward it to the client. *)
Definition reply (tokens : list qtoken) (http_q_pending : list qd) (it : nat)
    (num_rcvd : Z) (lqd : qd) (wait_out : qresult) : M tcp_locals :=
  let client_qfd := to_int (sgaseg_len (sga_segs1 (qr_sga wait_out))) in
  let http_q_pending := delete it http_q_pending in
  token <- dmtr_push client_qfd (qr_sga wait_out) ;;
  dmtr_wait token ;;;
  free (sgaseg_buf (sga_segs0 (qr_sga wait_out))) ;;;
  token <- dmtr_pop client_qfd ;;
  ret {| tokens := tokens ++ [token]; http_q_pending := http_q_pending;
         num_rcvd := num_rcvd; lqd := lqd |}.

(** One turn of the [while (1)] loop of [tcp_work]. *)
Definition tcp_work_iter (args : tcp_worker_args) (http_workers : list Worker)
    (l : tcp_locals) (a : arrival) (x : answers) : M tcp_locals :=
  r <- dmtr_wait_any (tokens l) a ;;
  let '(status, idx, wait_out) := r in
  if status =? 0 then
    if qr_qd wait_out =? lqd l then
      assert (opcode_eqb DMTR_OPC_ACCEPT (qr_opcode wait_out)) ;;;
      let tokens := vec_erase (tokens l) idx in
      token <- dmtr_pop (qr_ares_qd wait_out) ;;
      let tokens := tokens ++ [token] in
      token <- dmtr_accept (lqd l) ;;
      let tokens := tokens ++ [token] in
      ret {| tokens := tokens; http_q_pending := http_q_pending l;
             num_rcvd := num_rcvd l; lqd := lqd l |}
    else
      assert (opcode_eqb DMTR_OPC_POP (qr_opcode wait_out)) ;;;
      assert (sga_numsegs (qr_sga wait_out) <=? 2) ;;;
      let tokens := vec_erase (tokens l) idx in
      match find (http_q_pending l) (qr_qd wait_out) with
      | None =>
          num_rcvd <- defined (incr (num_rcvd l)) ;;
          if split args then
            forward args http_workers tokens (http_q_pending l) num_rcvd (lqd l)
                    wait_out x
          else
            serve tokens (http_q_pending l) num_rcvd (lqd l) wait_out x
      | Some it =>
          reply tokens (http_q_pending l) it (num_rcvd l) (lqd l) wait_out
      end
  else
    assert ((status =? ECONNRESET) || (status =? ECONNABORTED)) ;;;
    dmtr_close (qr_qd wait_out) ;;;
    ret {| tokens := vec_erase (tokens l) idx; http_q_pending := http_q_pending l;
           num_rcvd := num_rcvd l; lqd := lqd l |}.

(** The loop, over the completions the datapath delivers. *)
Fixpoint tcp_loop (args : tcp_worker_args) (http_workers : list Worker)
    (input : list (arrival * answers)) (l : tcp_locals) : M tcp_locals :=
  match input with
  | [] => ret l
  | (a, x) :: rest =>
      l' <- tcp_work_iter args http_workers l a x ;;
      tcp_loop args http_workers rest l'
  end.

Definition tcp_work (args : tcp_worker_args) (http_workers : list Worker)
    (input : list (arrival * answers)) : M tcp_locals :=
  l <- tcp_setup args ;;
  tcp_loop args http_workers input l.

End WithHeader.

End Tcp.
Import Tcp.

(** ** The supervisor *)

Module Supervisor.

(** The global vectors [work_setup] fills. *)
Record globals := {
  http_workers : list Worker;
  worker_threads : list Z
}.

Definition no_workers : globals := {| http_workers := []; worker_threads := [] |}.

(** The thread [main] runs in, and the world it starts from. *)
Definition main_thread : Z := 0.
Definition boot : world :=
  {| next_token := 1; next_qd := 1; next_tid := 1; trace := [] |}.

Definition INADDR_ANY : Z := 0.

(** [CPU_SETSIZE] of the C library: the number of CPUs a [cpu_set_t]
    has room for. *)
Definition CPU_SETSIZE : Z := 1024.

(** [CPU_ZERO(&cpuset); CPU_SET(cpu, &cpuset)]: the set holds [cpu] when
    [cpu] is below [CPU_SETSIZE], and stays empty otherwise. *)
Definition cpu_set (cpu : Z) : option Z :=
  if cpu <? CPU_SETSIZE then Some cpu else None.

(** [pin_thread(thread, cpu)], [cpu] being a [u_int16_t]: the call of
    [pthread_setaffinity_np] on the set built from [cpu].  Its failure (it
    fails on an empty set, and on a CPU the machine does not have) is
    only reported on [stderr]; the thread then stays unpinned. *)
Definition pin_thread (thread : Z) (cpu : Z) : M unit :=
  emit (c_pin thread (cpu_set (to_u16 cpu))).

(** [for (int i = start; ...; ++i) body], for [count] more turns. *)
Fixpoint for_loop {S : Type} (body : Z -> S -> M S) (i : Z) (count : nat) (s : S) : M S :=
  match count with
  | O => ret s
  | Datatypes.S k => s' <- body i s ;; for_loop body (i + 1) k s'
  end.

(** [for (int i = 0; i < n; ++i) body]. *)
Definition for_upto {S : Type} (n : Z) (body : Z -> S -> M S) (s : S) : M S :=
  for_loop body 0 (Z.to_nat n) s.

(** The same loop around a body that may make the enclosing function
    return: the body answers [Some status] then, and the loop ends. *)
Fixpoint for_loop_return {S : Type} (body : Z -> S -> M (option Z * S))
    (i : Z) (count : nat) (s : S) : M (option Z * S) :=
  match count with
  | O => ret (None, s)
  | Datatypes.S k =>
      r <- body i s ;;
      match r with
      | (Some status, s') => ret (Some status, s')
      | (None, s') => for_loop_return body (i + 1) k s'
      end
  end.

Section WithOptions.

(** [server_ip_addr] (as the address it parses to, in host byte order) and
    [port] are options declared in [common.hh]. *)
Variable server_ip_addr : option Z.
Variable port : Z.

(** The statuses the datapath answers with: to [dmtr_init], and to the two
    [dmtr_queue] calls of turn [i] of the second loop of [work_setup]. *)
Variable init_status : Z.
Variable queue_status : Z -> Z * Z.

(** The body of the first loop of [work_setup]. *)
Definition create_tcp_worker (n_tcp_workers n_http_workers : Z) (split : bool)
    (i : Z) (g : globals) : M globals :=
  let whoami := to_u8 i in
  let filter := ONE_TO_ONE in
  (if tcp_filters_eqb filter ONE_TO_ONE && (n_tcp_workers <? n_http_workers)
   then exit 1 else ret tt) ;;;
  let address :=
    match server_ip_addr with
    | None => INADDR_ANY
    | Some base => to_u32 (base + to_u32 (i * 2))
    end in
  let tcp_args := {| filter := filter;
                     saddr := {| sin_addr := address; sin_port := port |};
                     whoami := whoami; split := split |} in
  tid <- pthread_create (tcp_thread tcp_args) ;;
  let g := {| http_workers := http_workers g;
              worker_threads := worker_threads g ++ [tid] |} in
  pin_thread tid (i + 1) ;;;
  ret g.

(** The body of the second loop of [work_setup].  [DMTR_OK(call)] is a
    macro of the datapath headers, which are not among the sources: when the
    call answers a non-zero status it makes the enclosing function return
    that status; the body then answers [Some status], and the [Worker] just
    allocated, whose two descriptors start as -1, is not registered.  The
    vector holds a pointer to the
    [Worker], so the handle [pthread_create] writes into [worker->me] is
    seen through it. *)
Definition create_http_worker (n_tcp_workers : Z) (i : Z) (g : globals)
    : M (option Z * globals) :=
  r <- dmtr_queue (fst (queue_status i)) (-1) ;;
  let '(status, in_q) := r in
  if negb (status =? 0) then ret (Some status, g)
  else
    r <- dmtr_queue (snd (queue_status i)) (-1) ;;
    let '(status, out_q) := r in
    if negb (status =? 0) then ret (Some status, g)
    else
      let slot := length (http_workers g) in
      let workers :=
        http_workers g ++ [{| in_qfd := in_q; out_qfd := out_q; me := 0 |}] in
      tid <- pthread_create (http_thread in_q out_q) ;;
      let workers :=
        <[slot := {| in_qfd := in_q; out_qfd := out_q; me := tid |}]> workers in
      let g := {| http_workers := workers;
                  worker_threads := worker_threads g ++ [tid] |} in
      pin_thread tid (n_tcp_workers + i + 1) ;;;
      ret (None, g).

Definition work_setup (n_tcp_workers n_http_workers : Z) (split : bool)
    (g : globals) : M (Z * globals) :=
  g <- for_upto n_tcp_workers
         (create_tcp_worker n_tcp_workers n_http_workers split) g ;;
  if negb split then ret (1, g)
  else
    r <- for_loop_return (create_http_worker n_tcp_workers) 0
           (Z.to_nat n_http_workers) g ;;
    match r with
    | (Some status, g) => ret (status, g)
    | (None, g) => ret (1, g)
    end.

(** The final loop of [main]: [pthread_join] on every entry of
    [worker_threads]. *)
Fixpoint join_all (threads : list Z) : M unit :=
  match threads with
  | [] => ret tt
  | t :: rest => pthread_join t ;;; join_all rest
  end.

(** [main], from the two counts the option parser stored.  [DMTR_OK] around
    [dmtr_init] makes [main] return the status of a failed
    initialisation. *)
Definition main (n_http_workers n_tcp_workers : Z) : M (Z * globals) :=
  emit (c_sigmask true) ;;;
  status <- dmtr_init init_status ;;
  if negb (status =? 0) then ret (status, no_workers)
  else
    pin_thread main_thread 0 ;;;
    r <- work_setup n_tcp_workers n_http_workers false no_workers ;;
    emit (c_sigmask false) ;;;
    emit c_signal ;;;
    emit c_signal ;;;
    join_all (worker_threads (snd r)) ;;;
    ret (0, snd r).

End WithOptions.

End Supervisor.
Import Supervisor.

(** ** Vocabulary of the statements *)

Module Props.

(** The world a piece of code leaves behind, however it ends. *)
Definition world_of {A} (o : outcome A) : world :=
  match o with
  | Done _ w => w
  | Exit _ w => w
  | AssertFail w => w
  | Undefined w => w
  | Blocked w => w
  end.

(** What [clean_state] frees. *)
Definition state_frees (state : parser_state) : list ptr :=
  (if url state =? NULL then [] else [url state]) ++
  (if body state =? NULL then [] else [body state]).

(** How many times address [p] is freed along a trace. *)
Definition times_freed (p : ptr) (tr : list call) : nat :=
  length (List.filter (Z.eqb p) (frees tr)).

(** The arrival [a] is the successful completion of the pop [t], one of the
    tokens of [l], on a descriptor other than the listening one, and it
    passes the two assertions of that branch. *)
Definition ready_pop (l : tcp_locals) (a : arrival) (t : qtoken) : Prop :=
  ar_status a = 0 /\
  vec_at (tokens l) (ar_idx a) = Some t /\
  tk_op t = DMTR_OPC_POP /\
  tk_qd t <> lqd l /\
  sga_numsegs (ar_sga a) <= 2.

(** ... and it comes from a client: its descriptor is not among the
    pending compute queues.  The counter can still be incremented. *)
Definition new_request (l : tcp_locals) (a : arrival) (t : qtoken) : Prop :=
  ready_pop l a t /\
  find (http_q_pending l) (tk_qd t) = None /\
  num_rcvd l < INT_MAX.

(** The test the loop itself makes for "this is a new request". *)
Definition is_request (l : tcp_locals) (a : arrival) : bool :=
  (ar_status a =? 0) &&
  match vec_at (tokens l) (ar_idx a) with
  | Some t =>
      negb (tk_qd t =? lqd l) &&
      match find (http_q_pending l) (tk_qd t) with
      | None => true
      | Some _ => false
      end
  | None => false
  end.

(** The arrival is an error completion on the listening descriptor. *)
Definition listener_error (l : tcp_locals) (a : arrival) : bool :=
  negb (ar_status a =? 0) &&
  match vec_at (tokens l) (ar_idx a) with
  | Some t => tk_qd t =? lqd l
  | None => false
  end.

(** The accepts outstanding on descriptor [q] among the tokens waited on. *)
Definition is_accept_on (q : qd) (t : qtoken) : bool :=
  opcode_eqb (tk_op t) DMTR_OPC_ACCEPT && (tk_qd t =? q).
Definition outstanding_accepts (q : qd) (ts : list qtoken) : nat :=
  length (List.filter (is_accept_on q) ts).

(** The states in which a connection worker waits: after setup, and after
    every completed iteration.  [k] counts the new requests received on
    the way; [healthy] tells that no error completion has hit the
    listening descriptor so far. *)
Inductive waits_at (BAD : string) (args : tcp_worker_args) (hw : list Worker) :
    nat -> bool -> tcp_locals -> world -> Prop :=
| waits_setup w l w' :
    tcp_setup args w = Done l w' ->
    waits_at BAD args hw 0 true l w'
| waits_iter k healthy l w a x l' w' :
    waits_at BAD args hw k healthy l w ->
    tcp_work_iter BAD args hw l a x w = Done l' w' ->
    waits_at BAD args hw
      (if is_request l a then S k else k)
      (healthy && negb (listener_error l a)) l' w'.


(** The compute threads created along a trace, as their queue pairs. *)
Definition compute_threads (tr : list call) : list (qd * qd) :=
  omap (fun c => match c with
                 | c_pthread_create _ (http_thread i o) => Some (i, o)
                 | _ => None
                 end) tr.

(** What the [i]-th turn of each loop of [work_setup] does, counted from
    the world [w] (the descriptor [q0], the thread [t0]) in which the loop
    starts. *)
Definition tcp_args_of (server_ip_addr : option Z) (port : Z) (split : bool)
    (i : Z) : tcp_worker_args :=
  {| filter := ONE_TO_ONE;
     saddr := {| sin_addr := match server_ip_addr with
                             | None => INADDR_ANY
                             | Some base => to_u32 (base + to_u32 (i * 2))
                             end;
                 sin_port := port |};
     whoami := to_u8 i; split := split |}.

Definition tcp_calls (server_ip_addr : option Z) (port : Z) (split : bool)
    (w : world) (i : nat) : list call :=
  [c_pthread_create (next_tid w + Z.of_nat i)
     (tcp_thread (tcp_args_of server_ip_addr port split (Z.of_nat i)));
   c_pin (next_tid w + Z.of_nat i) (cpu_set (to_u16 (Z.of_nat i + 1)))].

(** Every [dmtr_queue] call of the first [n] turns of the second loop of
    [work_setup] succeeds. *)
Definition queues_succeed (queue_status : Z -> Z * Z) (n : Z) : Prop :=
  forall i, 0 <= i < n -> queue_status i = (0, 0).

(** A turn in which a [dmtr_queue] call fails, answering [st] to the two
    calls: the status [work_setup] returns, and the calls of that turn,
    [q0] being the next unused descriptor. *)
Definition failed_status (st : Z * Z) : Z :=
  if fst st =? 0 then snd st else fst st.
Definition failed_calls (q0 : qd) (st : Z * Z) : list call :=
  if fst st =? 0 then [c_queue q0; c_queue_failed (snd st)]
  else [c_queue_failed (fst st)].

Definition http_handle (q0 t0 : Z) (i : nat) : Worker :=
  {| in_qfd := q0 + 2 * Z.of_nat i;
     out_qfd := q0 + 2 * Z.of_nat i + 1;
     me := t0 + Z.of_nat i |}.

Definition http_calls (n_tcp_workers : Z) (q0 t0 : Z) (i : nat) : list call :=
  let h := http_handle q0 t0 i in
  [c_queue (in_qfd h);
   c_queue (out_qfd h);
   c_pthread_create (me h) (http_thread (in_qfd h) (out_qfd h));
   c_pin (me h) (cpu_set (to_u16 (n_tcp_workers + Z.of_nat i + 1)))].

End Props.
Import Props.

(** ** What one iteration of the connection worker does

    The relation below lists, branch by branch, the locals and the calls
    an iteration of [tcp_work] ends with.  It is related to
    [tcp_work_iter] in both directions by [tcp_work_iter_inv] and
    [tcp_work_iter_run]. *)

Module Branches.

Definition is_regex (x : answers) : bool :=
  match a_type x with REGEX_REQ => true | FILE_REQ => false end.

(** The next two tokens the datapath hands out in world [w]. *)
Definition tok0 (w : world) (op : opcode) (q : qd) : qtoken :=
  {| tk_id := next_token w; tk_op := op; tk_qd := q |}.
Definition tok1 (w : world) (op : opcode) (q : qd) : qtoken :=
  {| tk_id := next_token w + 1; tk_op := op; tk_qd := q |}.

(** The arrays the workers build. *)
Definition envelope (q : qd) (s : sgarray) : sgarray :=
  set_seg1_len (to_u32 q) (set_numsegs 2 s).
Definition bad_response (BAD : string) (numsegs : Z) (x : answers) : sgarray :=
  set_seg0_len (to_u32 (strlen BAD))
    (set_seg0_buf (a_malloc x) (set_numsegs numsegs (a_resp_sga x))).
Definition ok_response (x : answers) : sgarray :=
  set_seg0_buf (a_response x)
    (set_seg0_len (to_u32 (a_response_size x)) (set_numsegs 1 (a_resp_sga x))).

Definition client_of (s : sgarray) : qd := to_int (sgaseg_len (sga_segs1 s)).

Definition with_tokens (l : tcp_locals) (ts : list qtoken) : tcp_locals :=
  {| tokens := ts; http_q_pending := http_q_pending l;
     num_rcvd := num_rcvd l; lqd := lqd l |}.

Inductive iter_result (BAD : string) (args : tcp_worker_args) (hw : list Worker)
    (l : tcp_locals) (a : arrival) (x : answers) (w : world) (t : qtoken) :
    tcp_locals -> list call -> Prop :=
| it_error :
    ar_status a = ECONNRESET \/ ar_status a = ECONNABORTED ->
    iter_result BAD args hw l a x w t
      (with_tokens l (vec_erase (tokens l) (ar_idx a)))
      [c_wait_any (tokens l); c_close (tk_qd t)]
| it_accept :
    ar_status a = 0 -> tk_qd t = lqd l -> tk_op t = DMTR_OPC_ACCEPT ->
    iter_result BAD args hw l a x w t
      (with_tokens l (vec_erase (tokens l) (ar_idx a) ++
                      [tok0 w DMTR_OPC_POP (ar_ares_qd a);
                       tok1 w DMTR_OPC_ACCEPT (lqd l)]))
      [c_wait_any (tokens l);
       c_pop (tok0 w DMTR_OPC_POP (ar_ares_qd a));
       c_accept (tok1 w DMTR_OPC_ACCEPT (lqd l))]
| it_reply it :
    ready_pop l a t -> find (http_q_pending l) (tk_qd t) = Some it ->
    iter_result BAD args hw l a x w t
      {| tokens := vec_erase (tokens l) (ar_idx a) ++
                   [tok1 w DMTR_OPC_POP (client_of (ar_sga a))];
         http_q_pending := delete it (http_q_pending l);
         num_rcvd := num_rcvd l; lqd := lqd l |}
      [c_wait_any (tokens l);
       c_push (tok0 w DMTR_OPC_PUSH (client_of (ar_sga a))) (ar_sga a);
       c_wait (tok0 w DMTR_OPC_PUSH (client_of (ar_sga a)));
       c_free (sgaseg_buf (sga_segs0 (ar_sga a)));
       c_pop (tok1 w DMTR_OPC_POP (client_of (ar_sga a)))]
| it_forward idx wk :
    new_request l a t -> split args = true ->
    pick_worker args hw (num_rcvd l + 1) x = Some idx ->
    vec_at hw idx = Some wk ->
    iter_result BAD args hw l a x w t
      {| tokens := vec_erase (tokens l) (ar_idx a) ++
                   [tok1 w DMTR_OPC_POP (out_qfd wk)];
         http_q_pending := http_q_pending l ++ [out_qfd wk];
         num_rcvd := num_rcvd l + 1; lqd := lqd l |}
      [c_wait_any (tokens l);
       c_push (tok0 w DMTR_OPC_PUSH (in_qfd wk)) (envelope (tk_qd t) (ar_sga a));
       c_wait (tok0 w DMTR_OPC_PUSH (in_qfd wk));
       c_pop (tok1 w DMTR_OPC_POP (out_qfd wk))]
| it_bad_request :
    new_request l a t -> split args = false -> a_pstatus x = REQ_ERROR ->
    iter_result BAD args hw l a x w t
      {| tokens := vec_erase (tokens l) (ar_idx a);
         http_q_pending := http_q_pending l;
         num_rcvd := num_rcvd l + 1; lqd := lqd l |}
      ([c_wait_any (tokens l);
        c_free (sga_buf (ar_sga a));
        c_malloc (a_malloc x);
        c_push (tok0 w DMTR_OPC_PUSH (tk_qd t)) (bad_response BAD 1 x);
        c_wait (tok0 w DMTR_OPC_PUSH (tk_qd t))] ++
       map c_free (state_frees (a_state x)))
| it_incomplete :
    new_request l a t -> split args = false -> a_pstatus x = REQ_INCOMPLETE ->
    iter_result BAD args hw l a x w t
      {| tokens := vec_erase (tokens l) (ar_idx a);
         http_q_pending := http_q_pending l;
         num_rcvd := num_rcvd l + 1; lqd := lqd l |}
      ([c_wait_any (tokens l)] ++ map c_free (state_frees (a_state x)))
| it_no_response :
    new_request l a t -> split args = false -> a_pstatus x = REQ_COMPLETE ->
    a_response x = NULL ->
    iter_result BAD args hw l a x w t
      {| tokens := vec_erase (tokens l) (ar_idx a);
         http_q_pending := http_q_pending l;
         num_rcvd := num_rcvd l + 1; lqd := lqd l |}
      ([c_wait_any (tokens l);
        c_build (is_regex x) (url (a_state x)) (a_response x)] ++
       map c_free (state_frees (a_state x)))
| it_served :
    new_request l a t -> split args = false -> a_pstatus x = REQ_COMPLETE ->
    a_response x <> NULL ->
    iter_result BAD args hw l a x w t
      {| tokens := vec_erase (tokens l) (ar_idx a) ++
                   [tok1 w DMTR_OPC_POP (tk_qd t)];
         http_q_pending := http_q_pending l;
         num_rcvd := num_rcvd l + 1; lqd := lqd l |}
      ([c_wait_any (tokens l);
        c_build (is_regex x) (url (a_state x)) (a_response x);
        c_free (sga_buf (ar_sga a));
        c_push (tok0 w DMTR_OPC_PUSH (tk_qd t)) (ok_response x);
        c_wait (tok0 w DMTR_OPC_PUSH (tk_qd t));
        c_free (a_response x)] ++
       map c_free (state_frees (a_state x)) ++
       [c_pop (tok1 w DMTR_OPC_POP (tk_qd t))]).

(** What the compute worker does with a request it popped, after the pop
    and the wait. *)
Definition http_answer (BAD : string) (me : Worker) (a : arrival) (x : answers)
    (w : world) : list call :=
  let origin := sgaseg_len (sga_segs1 (ar_sga a)) in
  match a_pstatus x with
  | REQ_ERROR =>
      [c_free (sga_buf (ar_sga a));
       c_malloc (a_malloc x);
       c_push (tok1 w DMTR_OPC_PUSH (out_qfd me))
              (set_seg1_len origin (bad_response BAD 2 x));
       c_wait (tok1 w DMTR_OPC_PUSH (out_qfd me))] ++
      map c_free (state_frees (a_state x))
  | REQ_INCOMPLETE =>
      map c_free (state_frees (a_state x))
  | REQ_COMPLETE =>
      c_build (is_regex x) (url (a_state x)) (a_response x) ::
      (if a_response x =? NULL then []
       else [c_free (sga_buf (ar_sga a));
             c_push (tok1 w DMTR_OPC_PUSH (out_qfd me))
                    (set_seg1_len origin (ok_response x));
             c_wait (tok1 w DMTR_OPC_PUSH (out_qfd me))]) ++
      map c_free (state_frees (a_state x))
  end.

End Branches.
Import Branches.

(** ** Concrete inputs *)

Module Samples.

Definition BAD : string := "HTTP/1.1 400 Bad Request".

(** A request of 40 bytes in a buffer at address 500. *)
Definition request : sgarray :=
  {| sga_buf := 500; sga_numsegs := 1;
     sga_segs0 := {| sgaseg_buf := 500; sgaseg_len := 40 |};
     sga_segs1 := {| sgaseg_buf := 0; sgaseg_len := 0 |} |}.

(** Whatever the stack holds where [resp_sga] is declared. *)
Definition junk : sgarray :=
  {| sga_buf := 77; sga_numsegs := 9;
     sga_segs0 := {| sgaseg_buf := 1; sgaseg_len := 2 |};
     sga_segs1 := {| sgaseg_buf := 3; sgaseg_len := 4 |} |}.

(** The parser's verdict [st] on a request for a file; the builder
    answers with 120 bytes at address 700. *)
Definition answer (st : parser_status) : answers :=
  {| a_pstatus := st; a_state := {| url := 600; body := NULL |};
     a_type := FILE_REQ; a_response := 700; a_response_size := 120;
     a_malloc := 800; a_resp_sga := junk; a_filter := 1 |}.

Definition any_addr : sockaddr_in := {| sin_addr := 0; sin_port := 80 |}.

(** A datapath that creates every queue, and one that fails, with status
    12, to create the output queue of the second compute worker. *)
Definition queues_ok : Z -> Z * Z := fun _ => (0, 0).
Definition second_queue_fails : Z -> Z * Z :=
  fun i => if i =? 1 then (0, 12) else (0, 0).

Definition joined_args : tcp_worker_args :=
  {| filter := ONE_TO_ONE; saddr := any_addr; whoami := 0; split := false |}.
Definition rr_args : tcp_worker_args :=
  {| filter := RR; saddr := any_addr; whoami := 0; split := true |}.
(** The arguments [work_setup] gives its second connection worker in split
    mode. *)
Definition second_args : tcp_worker_args :=
  {| filter := ONE_TO_ONE; saddr := any_addr; whoami := 1; split := true |}.

Definition two_workers : list Worker :=
  [{| in_qfd := 20; out_qfd := 21; me := 2 |};
   {| in_qfd := 22; out_qfd := 23; me := 3 |}].

(** Completion of the token at index [i]: with status [st], delivering the
    accepted descriptor [q] or the array [s]. *)
Definition arrive (st : Z) (i : Z) (q : qd) (s : sgarray) : arrival :=
  {| ar_status := st; ar_idx := i; ar_ares_qd := q; ar_sga := s |}.

(** A client connects (descriptor 5) and sends [request]. *)
Definition connects : arrival := arrive 0 0 5 request.
Definition sends : arrival := arrive 0 0 0 request.

(** The tokens of the first accept, of the pop on the client, and of the
    accept that follows. *)
Definition first_accept : qtoken := {| tk_id := 1; tk_op := DMTR_OPC_ACCEPT; tk_qd := 1 |}.
Definition client_pop : qtoken := {| tk_id := 2; tk_op := DMTR_OPC_POP; tk_qd := 5 |}.
Definition next_accept : qtoken := {| tk_id := 3; tk_op := DMTR_OPC_ACCEPT; tk_qd := 1 |}.

(** A connection worker after setup in the world [boot], and after it
    accepted the client. *)
Definition fresh_locals : tcp_locals :=
  {| tokens := [first_accept]; http_q_pending := []; num_rcvd := 0; lqd := 1 |}.
Definition fresh_world : world :=
  {| next_token := 2; next_qd := 2; next_tid := 1;
     trace := [c_socket 1; c_lqds_push 1; c_bind 1 any_addr; c_listen 1 10;
               c_accept first_accept] |}.
Definition armed_locals : tcp_locals :=
  {| tokens := [client_pop; next_accept]; http_q_pending := [];
     num_rcvd := 0; lqd := 1 |}.
Definition armed_world : world :=
  {| next_token := 4; next_qd := 2; next_tid := 1;
     trace := trace fresh_world ++
              [c_wait_any [first_accept]; c_pop client_pop; c_accept next_accept] |}.

(** A connection worker in split mode that waits for the reply of the
    second compute worker. *)
Definition reply_pop : qtoken := {| tk_id := 5; tk_op := DMTR_OPC_POP; tk_qd := 23 |}.
Definition pending_locals : tcp_locals :=
  {| tokens := [next_accept; reply_pop]; http_q_pending := [23];
     num_rcvd := 1; lqd := 1 |}.

(** In joined mode, the worker after it served [request] to the client, and
    the pop that re-arms the client. *)
Definition response_push : qtoken := {| tk_id := 4; tk_op := DMTR_OPC_PUSH; tk_qd := 5 |}.
Definition rearm_pop : qtoken := {| tk_id := 5; tk_op := DMTR_OPC_POP; tk_qd := 5 |}.
Definition served_locals : tcp_locals :=
  {| tokens := [next_accept; rearm_pop]; http_q_pending := [];
     num_rcvd := 1; lqd := 1 |}.
Definition served_world : world :=
  {| next_token := 6; next_qd := 2; next_tid := 1;
     trace := trace armed_world ++
              [c_wait_any [client_pop; next_accept];
               c_build false 600 700; c_free 500;
               c_push response_push (ok_response (answer REQ_COMPLETE));
               c_wait response_push; c_free 700; c_free 600;
               c_pop rearm_pop] |}.

(** The second compute worker of [two_workers]. *)
Definition second_worker : Worker := {| in_qfd := 22; out_qfd := 23; me := 3 |}.

End Samples.
Import Samples.

(** ** The request-line filter *)

Module Filter.
Import Ascii.

(** A [std::string], as its characters. *)
Definition lit (s : string) : list ascii := list_ascii_of_string s.

Definition SP : ascii := " "%char.
Definition CRLF : list ascii := ["013"%char; "010"%char].

(** [s.find(c, pos)]: the first position from [pos] on that holds [c];
    [None] is [npos]. *)
Fixpoint find_char (c : ascii) (s : list ascii) (pos : nat) : option nat :=
  match s with
  | [] => None
  | x :: rest =>
      match pos with
      | O => if Ascii.eqb x c then Some O else S <$> find_char c rest O
      | S p => S <$> find_char c rest p
      end
  end.

Fixpoint starts_with (pat s : list ascii) : bool :=
  match pat, s with
  | [], _ => true
  | p :: pat', x :: s' => Ascii.eqb p x && starts_with pat' s'
  | _ :: _, [] => false
  end.

(** [s.find(pat)]: the first position at which [pat] occurs. *)
Fixpoint find_str (pat s : list ascii) : option nat :=
  if starts_with pat s then Some O
  else match s with
       | [] => None
       | _ :: rest => S <$> find_str pat rest
       end.

(** [s.substr(pos, n)], for [pos] within the string. *)
Definition substr (s : list ascii) (pos n : nat) : list ascii :=
  take n (drop pos s).

(** The [while] loop of [match_filter], for at most [fuel] turns; [None]
    when the turns do not suffice.  Leaving the loop by its condition leads
    to the final [return 0]. *)
Fixpoint scan_line (fuel : nat) (request_line : list ascii) (last : nat) (i : Z)
    : option Z :=
  match fuel with
  | O => None
  | S fuel' =>
      match find_char SP request_line last with
      | None => Some 0
      | Some next =>
          if i =? 3 then
            let http := substr request_line last (next - last) in
            match find_str (lit "HTTP") http with
            | Some _ => Some 1
            | None => Some 0
            end
          else scan_line fuel' request_line (next + 1) (i + 1)
      end
  end.

(** [match_filter]: every turn of the loop but the last moves [last] past
    one more character of the request line, so its length bounds the
    turns. *)
Definition match_filter (message : list ascii) : option Z :=
  match find_str CRLF message with
  | Some p =>
      let request_line := substr message 0 p in
      scan_line (S (length request_line)) request_line 0 1
  | None => Some 0
  end.

(** The request line the statements speak of: three tokens without a
    space, each followed by a space, the third one holding [HTTP]. *)
Definition third_token_http (line : list ascii) : Prop :=
  exists a b c rest,
    line = a ++ SP :: b ++ SP :: c ++ SP :: rest /\
    (SP ∉ a) /\ (SP ∉ b) /\ (SP ∉ c) /\
    exists pre post, c = pre ++ lit "HTTP" ++ post.

(** [pat] occurs in [s]. *)
Definition occurs (pat s : list ascii) : Prop :=
  exists pre post, s = pre ++ pat ++ post.

(** The messages [match_filter] answers 1 for: a first line, ended by the
    first CRLF of the message, of that shape. *)
Definition recognised (message : list ascii) : Prop :=
  exists line tail,
    message = line ++ CRLF ++ tail /\ ~ occurs CRLF line /\
    third_token_http line.

(** The number of spaces of a line. *)
Definition spaces (line : list ascii) : nat :=
  length (List.filter (Ascii.eqb SP) line).

End Filter.
Import Filter.

(** ** More vocabulary: threads, pins and tokens *)

Module Observations.

(** Further projections of a trace: the threads pinned with their CPU, the
    threads created, the threads joined, the descriptors closed. *)
Definition pins (tr : list call) : list (Z * option Z) :=
  omap (fun c => match c with c_pin t set => Some (t, set) | _ => None end) tr.
Definition creates (tr : list call) : list Z :=
  omap (fun c => match c with c_pthread_create t _ => Some t | _ => None end) tr.
Definition joins (tr : list call) : list Z :=
  omap (fun c => match c with c_join t => Some t | _ => None end) tr.
Definition closes (tr : list call) : list qd :=
  omap (fun c => match c with c_close q => Some q | _ => None end) tr.

(** The tokens a connection worker with listening descriptor [lqd] waits
    on: accepts on [lqd], and pops. *)
Definition expected_token (lqd : qd) (t : qtoken) : Prop :=
  (tk_op t = DMTR_OPC_ACCEPT /\ tk_qd t = lqd) \/ tk_op t = DMTR_OPC_POP.

(** The outcome is a failed [assert]. *)
Definition assert_failed {A} (o : outcome A) : bool :=
  match o with AssertFail _ => true | _ => false end.

(** The outcome is undefined behaviour. *)
Definition is_undefined {A} (o : outcome A) : bool :=
  match o with Undefined _ => true | _ => false end.


(** The buffer of the response the compute worker pushes. *)
Definition response_buffer (x : answers) : ptr :=
  match a_pstatus x with
  | REQ_ERROR => a_malloc x
  | _ => a_response x
  end.

End Observations.
Import Observations.

(** * Proofs *)

(** ** Running the code symbolically *)

Ltac run :=
  cbv [bind ret emit exit undefined blocked assert submit fresh_qd fresh_tid
       defined pthread_join dmtr_init dmtr_socket dmtr_queue dmtr_bind dmtr_listen dmtr_accept
       dmtr_pop dmtr_push dmtr_wait dmtr_close free pthread_create pin_thread
       dmtr_wait_out dmtr_wait_any malloc regex_work file_work
       build_response result_of]; cbn.

Ltac run_in H :=
  cbv [bind ret emit exit undefined blocked assert submit fresh_qd fresh_tid
       defined pthread_join dmtr_init dmtr_socket dmtr_queue dmtr_bind dmtr_listen dmtr_accept
       dmtr_pop dmtr_push dmtr_wait dmtr_close free pthread_create pin_thread
       dmtr_wait_out dmtr_wait_any malloc regex_work file_work
       build_response result_of] in H; cbn in H.

(** Reads the calls made since [w] off a final world whose trace is the
    trace of [w] followed by explicit calls. *)
Ltac delta :=
  unfold since; cbn [trace]; rewrite <- ?app_assoc; rewrite drop_app_length; cbn.



(** ** Integer conversions *)

Lemma to_int_to_u32 q : - 2 ^ 31 <= q < 2 ^ 31 -> to_int (to_u32 q) = q.
Proof.
  intros H. unfold to_int, to_signed, to_u32, to_unsigned.
  rewrite Z.mod_mod by lia.
  destruct (Z.lt_ge_cases q 0).
  - replace (q mod 2 ^ 32) with (q + 2 ^ 32).
    + destruct (Z.ltb_spec (q + 2 ^ 32) (2 ^ (32 - 1))); lia.
    + apply Z.mod_unique with (q := -1); lia.
  - rewrite Z.mod_small by lia.
    destruct (Z.ltb_spec q (2 ^ (32 - 1))); lia.
Qed.

Lemma to_int_small z : 0 <= z < 2 ^ 31 -> to_int z = z.
Proof.
  intros H. unfold to_int, to_signed, to_unsigned.
  rewrite Z.mod_small by lia.
  destruct (Z.ltb_spec z (2 ^ (32 - 1))); lia.
Qed.

Lemma to_u64_small z : 0 <= z < 2 ^ 64 -> to_u64 z = z.
Proof. intros H. unfold to_u64, to_unsigned. now apply Z.mod_small. Qed.

Lemma vec_at_nat {A} (v : list A) (i : nat) : vec_at v (Z.of_nat i) = v !! i.
Proof.
  unfold vec_at. destruct (Z.ltb_spec (Z.of_nat i) 0); [lia|].
  now rewrite Nat2Z.id.
Qed.

Lemma vec_at_elem {A} (v : list A) (i : Z) (a : A) : vec_at v i = Some a -> a ∈ v.
Proof.
  unfold vec_at. destruct (i <? 0); [discriminate|].
  apply list_elem_of_lookup_2.
Qed.

(** The round-robin index: for a counter that fits an [int], the
    conversions are the identity and the index is [k mod N]. *)
Lemma rem_size_round_robin (k : nat) (hw : list Worker) :
  hw <> [] -> Z.of_nat k <= INT_MAX ->
  rem_size (Z.of_nat k) hw = Some (Z.of_nat (k mod length hw)).
Proof.
  intros Hne Hk. unfold rem_size, INT_MAX in *.
  assert (Hlen : (length hw <> 0)%nat) by (destruct hw; [congruence | discriminate]).
  destruct (Z.eqb_spec (Z.of_nat (length hw)) 0) as [E|_]; [lia|].
  rewrite to_u64_small by lia.
  rewrite <- Nat2Z.inj_mod.
  rewrite to_int_small; [reflexivity|].
  pose proof (Nat.Div0.mod_le k (length hw)). lia.
Qed.

(** ** Traces *)

Lemma since_app w w' d : trace w' = trace w ++ d -> since w w' = d.
Proof. intros H. unfold since. rewrite H. apply drop_app_length. Qed.

Lemma pushes_frees (ps : list ptr) : pushes (map c_free ps) = [].
Proof. induction ps as [|p ps IH]; [reflexivity | exact IH]. Qed.

Lemma compute_threads_app tr1 tr2 :
  compute_threads (tr1 ++ tr2) = compute_threads tr1 ++ compute_threads tr2.
Proof. apply omap_app. Qed.

Lemma clean_state_done st w :
  clean_state st w =
  Done tt {| next_token := next_token w; next_qd := next_qd w;
             next_tid := next_tid w;
             trace := trace w ++ map c_free (state_frees st) |}.
Proof.
  unfold clean_state, state_frees. run.
  destruct (url st =? NULL), (body st =? NULL); cbn;
    rewrite <- ?app_assoc, ?app_nil_r; cbn; now destruct w.
Qed.

Lemma join_all_nil w : join_all [] w = Done tt w.
Proof. reflexivity. Qed.

(** The first [pthread_join] does not return. *)
Lemma join_all_blocks t ts w :
  join_all (t :: ts) w =
  Blocked {| next_token := next_token w; next_qd := next_qd w;
             next_tid := next_tid w; trace := trace w ++ [c_join t] |}.
Proof. reflexivity. Qed.

Lemma failed_status_nonzero (st : Z * Z) : st <> (0, 0) -> failed_status st <> 0.
Proof.
  destruct st as [a b]. unfold failed_status. cbn. intros H.
  destruct (Z.eqb_spec a 0) as [->|]; [|assumption].
  intros ->. now apply H.
Qed.

(** ** The supervisor *)

Section SupervisorFacts.
Context (ip : option Z) (port : Z) (qs : Z -> Z * Z).

Lemma create_tcp_worker_exit n_tcp n_http split i g w :
  n_tcp < n_http ->
  create_tcp_worker ip port n_tcp n_http split i g w = Exit 1 w.
Proof.
  intros H. apply Z.ltb_lt in H. unfold create_tcp_worker. run.
  rewrite H. reflexivity.
Qed.

Lemma create_tcp_worker_done n_tcp n_http split i g w :
  n_http <= n_tcp ->
  create_tcp_worker ip port n_tcp n_http split i g w =
  Done {| http_workers := http_workers g;
          worker_threads := worker_threads g ++ [next_tid w] |}
       {| next_token := next_token w; next_qd := next_qd w;
          next_tid := next_tid w + 1;
          trace := trace w ++
                   [c_pthread_create (next_tid w)
                      (tcp_thread (tcp_args_of ip port split i));
                    c_pin (next_tid w) (cpu_set (to_u16 (i + 1)))] |}.
Proof.
  intros H. apply Z.ltb_ge in H. unfold create_tcp_worker. run.
  rewrite H. cbn. rewrite <- app_assoc. reflexivity.
Qed.

Lemma create_http_worker_done n_tcp i g w :
  qs i = (0, 0) ->
  create_http_worker qs n_tcp i g w =
  Done (None,
        {| http_workers := http_workers g ++
             [{| in_qfd := next_qd w; out_qfd := next_qd w + 1; me := next_tid w |}];
           worker_threads := worker_threads g ++ [next_tid w] |})
       {| next_token := next_token w; next_qd := next_qd w + 1 + 1;
          next_tid := next_tid w + 1;
          trace := trace w ++
                   [c_queue (next_qd w); c_queue (next_qd w + 1);
                    c_pthread_create (next_tid w) (http_thread (next_qd w) (next_qd w + 1));
                    c_pin (next_tid w) (cpu_set (to_u16 (n_tcp + i + 1)))] |}.
Proof.
  intros E. unfold create_http_worker. rewrite E. run.
  rewrite insert_app_r_alt by lia. rewrite Nat.sub_diag. cbn.
  rewrite <- !app_assoc. reflexivity.
Qed.

(** A turn in which a queue cannot be created registers nothing and
    creates no thread. *)
Lemma create_http_worker_failed n_tcp i g w :
  qs i <> (0, 0) ->
  create_http_worker qs n_tcp i g w =
  Done (Some (failed_status (qs i)), g)
       {| next_token := next_token w;
          next_qd := if fst (qs i) =? 0 then next_qd w + 1 else next_qd w;
          next_tid := next_tid w;
          trace := trace w ++ failed_calls (next_qd w) (qs i) |}.
Proof.
  intros H. unfold create_http_worker, failed_status, failed_calls.
  destruct (qs i) as [a b]. run.
  destruct (Z.eqb_spec a 0) as [->|Ha]; cbn.
  - destruct (Z.eqb_spec b 0) as [->|Hb]; [now contradict H|].
    apply Z.eqb_neq in Hb. rewrite Hb. cbn.
    rewrite <- app_assoc. reflexivity.
  - apply Z.eqb_neq in Ha. rewrite Ha. reflexivity.
Qed.

Lemma tcp_loop_exit n_tcp n_http split i c g w :
  n_tcp < n_http ->
  for_loop (create_tcp_worker ip port n_tcp n_http split) i (S c) g w = Exit 1 w.
Proof.
  intros H. cbn [for_loop]. unfold bind.
  rewrite create_tcp_worker_exit by assumption. reflexivity.
Qed.

Lemma tcp_loop_done n_tcp n_http split w0 c : forall i g w,
  n_http <= n_tcp ->
  next_tid w = next_tid w0 + Z.of_nat i ->
  for_loop (create_tcp_worker ip port n_tcp n_http split) (Z.of_nat i) c g w =
  Done {| http_workers := http_workers g;
          worker_threads := worker_threads g ++
                            map (fun k => next_tid w0 + Z.of_nat k) (seq i c) |}
       {| next_token := next_token w; next_qd := next_qd w;
          next_tid := next_tid w + Z.of_nat c;
          trace := trace w ++ flat_map (tcp_calls ip port split w0) (seq i c) |}.
Proof.
  induction c as [|c IH]; intros i g w Hle Ht.
  - cbn. unfold ret. rewrite !app_nil_r, Z.add_0_r. destruct g, w; reflexivity.
  - cbn [for_loop]. unfold bind.
    rewrite create_tcp_worker_done by assumption.
    replace (Z.of_nat i + 1) with (Z.of_nat (S i)) at 1 by lia.
    rewrite IH by (cbn; lia). cbn.
    rewrite <- !app_assoc. cbn. rewrite Ht, Nat2Z.inj_succ.
    do 2 f_equal; try lia.
Qed.

(** The second loop while the queues are created: [c] turns from turn
    [i]. *)
Lemma http_loop_done n_tcp q0 t0 c : forall i g w,
  (forall k, (i <= k < i + c)%nat -> qs (Z.of_nat k) = (0, 0)) ->
  next_tid w = t0 + Z.of_nat i ->
  next_qd w = q0 + 2 * Z.of_nat i ->
  for_loop_return (create_http_worker qs n_tcp) (Z.of_nat i) c g w =
  Done (None,
        {| http_workers := http_workers g ++ map (http_handle q0 t0) (seq i c);
           worker_threads := worker_threads g ++
                             map (fun k => t0 + Z.of_nat k) (seq i c) |})
       {| next_token := next_token w; next_qd := next_qd w + 2 * Z.of_nat c;
          next_tid := next_tid w + Z.of_nat c;
          trace := trace w ++ flat_map (http_calls n_tcp q0 t0) (seq i c) |}.
Proof.
  induction c as [|c IH]; intros i g w Hok Ht Hq.
  - cbn. unfold ret. rewrite !app_nil_r, !Z.add_0_r. destruct g, w; reflexivity.
  - cbn [for_loop_return]. unfold bind.
    rewrite create_http_worker_done by (apply Hok; lia).
    replace (Z.of_nat i + 1) with (Z.of_nat (S i)) at 1 by lia.
    rewrite IH by (try (intros k Hk; apply Hok); cbn; lia). cbn.
    rewrite <- !app_assoc. cbn. unfold http_handle. cbn.
    rewrite Ht, Hq, Nat2Z.inj_succ.
    do 2 f_equal; lia.
Qed.

(** The second loop when a queue cannot be created in turn [i + c], the
    turns before it going well: [work_setup] returns in that turn. *)
Lemma http_loop_failed n_tcp q0 t0 c rest : forall i g w,
  (forall k, (i <= k < i + c)%nat -> qs (Z.of_nat k) = (0, 0)) ->
  qs (Z.of_nat (i + c)) <> (0, 0) ->
  next_tid w = t0 + Z.of_nat i ->
  next_qd w = q0 + 2 * Z.of_nat i ->
  exists w',
    for_loop_return (create_http_worker qs n_tcp) (Z.of_nat i) (c + S rest) g w =
    Done (Some (failed_status (qs (Z.of_nat (i + c)))),
          {| http_workers := http_workers g ++ map (http_handle q0 t0) (seq i c);
             worker_threads := worker_threads g ++
                               map (fun k => t0 + Z.of_nat k) (seq i c) |})
         w' /\
    trace w' = trace w ++ flat_map (http_calls n_tcp q0 t0) (seq i c) ++
               failed_calls (q0 + 2 * Z.of_nat (i + c)) (qs (Z.of_nat (i + c))).
Proof.
  induction c as [|c IH]; intros i g w Hok Hbad Ht Hq.
  - rewrite Nat.add_0_r in *. cbn [Nat.add for_loop_return]. unfold bind.
    rewrite create_http_worker_failed by assumption. cbn.
    eexists. split.
    + unfold ret. rewrite !app_nil_r. destruct g; reflexivity.
    + cbn. now rewrite Hq.
  - cbn [Nat.add for_loop_return]. unfold bind.
    rewrite create_http_worker_done by (apply Hok; lia). cbv beta iota.
    assert (Ei : Z.of_nat i + 1 = Z.of_nat (S i)) by lia. rewrite Ei.
    match goal with
    | |- context [for_loop_return _ _ _ ?g1 ?w1] =>
        destruct (IH (S i) g1 w1) as (w' & E & Htr)
    end.
    + intros k Hk. apply Hok. lia.
    + now replace (S i + c)%nat with (i + S c)%nat by lia.
    + cbn. lia.
    + cbn. lia.
    + exists w'. replace (S i + c)%nat with (i + S c)%nat in * by lia.
      split.
      * rewrite E. cbn. rewrite <- !app_assoc. cbn.
        rewrite Ht, Hq. reflexivity.
      * rewrite Htr. cbn. rewrite <- !app_assoc. cbn.
        rewrite Ht, Hq. reflexivity.
Qed.

(** The second loop always ends in a return. *)
Lemma http_loop_returns n_tcp c : forall i g w,
  exists r w', for_loop_return (create_http_worker qs n_tcp) i c g w = Done r w'.
Proof.
  induction c as [|c IH]; intros i g w; [eexists _, _; reflexivity|].
  cbn [for_loop_return]. unfold bind.
  destruct (decide (qs i = (0, 0))) as [E|E].
  - rewrite create_http_worker_done by assumption. apply IH.
  - rewrite create_http_worker_failed by assumption. eexists _, _. reflexivity.
Qed.

Lemma compute_threads_tcp_calls split w0 (ks : list nat) :
  compute_threads (flat_map (tcp_calls ip port split w0) ks) = [].
Proof. induction ks as [|k ks IH]; [reflexivity | exact IH]. Qed.

(** The first loop of [work_setup]: it leaves at its first turn, or runs to
    its end. *)
Lemma tcp_workers_loop n_tcp n_http split g w :
  (0 < n_tcp /\ n_tcp < n_http /\
   for_upto n_tcp (create_tcp_worker ip port n_tcp n_http split) g w = Exit 1 w)
  \/
  ((n_tcp <= 0 \/ n_http <= n_tcp) /\
   exists g' w',
     for_upto n_tcp (create_tcp_worker ip port n_tcp n_http split) g w = Done g' w' /\
     http_workers g' = http_workers g /\
     next_qd w' = next_qd w /\
     next_tid w' = next_tid w + Z.max 0 n_tcp /\
     trace w' = trace w ++
                flat_map (tcp_calls ip port split w) (seq 0 (Z.to_nat n_tcp))).
Proof.
  unfold for_upto.
  destruct (Z.to_nat n_tcp) as [|c] eqn:Hc.
  - right. split; [lia|]. eexists _, _. cbn. unfold ret.
    repeat split; [lia | now rewrite app_nil_r].
  - destruct (Z.lt_ge_cases n_tcp n_http) as [Hlt|Hge].
    + left. repeat split; [lia | lia |]. now apply tcp_loop_exit.
    + right. split; [lia|]. eexists _, _.
      pose proof (tcp_loop_done n_tcp n_http split w (S c) 0%nat g w Hge) as E.
      change (Z.of_nat 0) with 0 in E. rewrite E by lia.
      repeat split. cbn [next_tid]. lia.
Qed.

Lemma work_setup_exit n_tcp n_http split g w :
  0 < n_tcp -> n_tcp < n_http ->
  work_setup ip port qs n_tcp n_http split g w = Exit 1 w.
Proof.
  intros H0 H1. unfold work_setup, bind.
  destruct (tcp_workers_loop n_tcp n_http split g w)
    as [(_ & _ & E) | (H & _)]; [now rewrite E | lia].
Qed.

(** On counts that pass the check, [work_setup] returns: 1, or the status
    of the [dmtr_queue] call that failed. *)
Lemma work_setup_returns n_tcp n_http split g w :
  (n_tcp <= 0 \/ n_http <= n_tcp) ->
  exists status g' w',
    work_setup ip port qs n_tcp n_http split g w = Done (status, g') w' /\
    (split = false \/ queues_succeed qs n_http -> status = 1).
Proof.
  intros Hok. unfold work_setup, bind.
  destruct (tcp_workers_loop n_tcp n_http split g w)
    as [(? & ? & _) | (_ & g' & w1 & E1 & _)]; [lia|].
  rewrite E1. destruct split; cbn [negb].
  2: { eexists _, _, _. split; [reflexivity|]. reflexivity. }
  destruct (http_loop_returns n_tcp (Z.to_nat n_http) 0 g' w1)
    as ([[status|] g2] & w2 & E2); rewrite E2.
  - eexists _, _, _. split; [reflexivity|].
    intros [Hs|Hq]; [discriminate|].
    pose proof (http_loop_done n_tcp (next_qd w1) (next_tid w1)
                  (Z.to_nat n_http) 0%nat g' w1) as E3.
    change (Z.of_nat 0) with 0 in E3. rewrite E3 in E2; [discriminate| |lia|lia].
    intros k Hk. apply Hq. lia.
  - eexists _, _, _. split; [reflexivity|]. reflexivity.
Qed.

(** [work_setup] leaves through [exit(1)] exactly when there is at least
    one connection worker and fewer connection workers than compute
    workers, whatever [split] is. *)
Lemma work_setup_exit_iff n_tcp n_http split g w :
  (exists w', work_setup ip port qs n_tcp n_http split g w = Exit 1 w') <->
  0 < n_tcp < n_http.
Proof.
  split.
  - intros [w' E].
    destruct (Z.lt_ge_cases 0 n_tcp) as [H0|H0];
      [destruct (Z.lt_ge_cases n_tcp n_http) as [H1|H1]; [lia|] |].
    all: destruct (work_setup_returns n_tcp n_http split g w)
           as (st & g' & w1 & E1 & _); [lia|];
         rewrite E1 in E; discriminate.
  - intros [H0 H1]. exists w. now apply work_setup_exit.
Qed.

(** [main]: it returns the status of a failed initialisation; else it
    leaves through the check of [work_setup], or returns 0 when there is no
    connection worker, or creates the connection workers, and no other
    thread, and stays in the first [pthread_join]. *)
Lemma main_outcome init n_http n_tcp w :
  let w1 := {| next_token := next_token w; next_qd := next_qd w;
               next_tid := next_tid w;
               trace := trace w ++ [c_sigmask true; c_init] |} in
  let w3 := {| next_token := next_token w; next_qd := next_qd w;
               next_tid := next_tid w;
               trace := trace w ++ [c_sigmask true; c_init;
                                    c_pin main_thread (Some 0)] |} in
  (init <> 0 /\ main ip port init qs n_http n_tcp w = Done (init, no_workers) w1) \/
  (init = 0 /\ 0 < n_tcp < n_http /\
   main ip port init qs n_http n_tcp w = Exit 1 w3) \/
  (init = 0 /\ n_tcp <= 0 /\
   exists w',
     main ip port init qs n_http n_tcp w = Done (0, no_workers) w' /\
     since w w' =
       [c_sigmask true; c_init; c_pin main_thread (Some 0);
        c_sigmask false; c_signal; c_signal]) \/
  (init = 0 /\ 0 < n_tcp /\ n_http <= n_tcp /\
   exists w',
     main ip port init qs n_http n_tcp w = Blocked w' /\
     since w w' =
       [c_sigmask true; c_init; c_pin main_thread (Some 0)] ++
       flat_map (tcp_calls ip port false w) (seq 0 (Z.to_nat n_tcp)) ++
       [c_sigmask false; c_signal; c_signal; c_join (next_tid w)]).
Proof.
  intros w1 w3. unfold main. run.
  destruct (Z.eqb_spec init 0) as [->|Hi]; cbn.
  2: { left. split; [exact Hi|]. subst w1. now rewrite <- app_assoc. }
  right. rewrite <- !app_assoc. cbn [app].
  change (cpu_set (to_u16 0)) with (Some 0). fold w3.
  unfold work_setup, bind, for_upto. cbn [negb].
  destruct (Z.to_nat n_tcp) as [|c] eqn:Hc.
  - right. left. split; [reflexivity|]. split; [lia|]. cbn.
    eexists. split; [reflexivity|]. delta. reflexivity.
  - destruct (Z.lt_ge_cases n_tcp n_http) as [Hlt|Hge].
    + left. split; [reflexivity|]. split; [lia|].
      now rewrite tcp_loop_exit.
    + right. right. split; [reflexivity|]. split; [lia|]. split; [lia|].
      pose proof (tcp_loop_done n_tcp n_http false w3 (S c) 0%nat no_workers w3 Hge)
        as E.
      change (Z.of_nat 0) with 0 in E. rewrite E by lia. cbn.
      eexists. split; [reflexivity|]. apply since_app. cbn.
      change (tcp_calls ip port false w3) with (tcp_calls ip port false w).
      rewrite <- !app_assoc. cbn. now rewrite Z.add_0_r.
Qed.

(** C1 (amended).  [main] reads no [split] flag: it parses the two counts,
    passes [false], and creates no compute thread whatever the counts are.
    [work_setup] called with [split] set, on counts that pass its check
    ([n_tcp <= 0], or no more compute than connection workers), registers
    [n_http] compute workers when every queue can be created; the calls of
    the [i]-th one are the creation of its input queue, of its output
    queue, then [pthread_create], then the pinning.  When a queue cannot be
    created in turn [j], [work_setup] returns the status of that call at
    once, the [j] workers of the turns before being registered and no
    thread being created in turn [j]. *)
Theorem work_setup_split_creates_compute_workers n_tcp n_http g w :
  (n_tcp <= 0 \/ n_http <= n_tcp) ->
  (queues_succeed qs n_http ->
   exists g' w',
     work_setup ip port qs n_tcp n_http true g w = Done (1, g') w' /\
     http_workers g' =
       http_workers g ++
       map (http_handle (next_qd w) (next_tid w + Z.max 0 n_tcp))
           (seq 0 (Z.to_nat n_http)) /\
     since w w' =
       flat_map (tcp_calls ip port true w) (seq 0 (Z.to_nat n_tcp)) ++
       flat_map (http_calls n_tcp (next_qd w) (next_tid w + Z.max 0 n_tcp))
                (seq 0 (Z.to_nat n_http))) /\
  (forall j : nat,
     Z.of_nat j < n_http -> queues_succeed qs (Z.of_nat j) ->
     qs (Z.of_nat j) <> (0, 0) ->
     exists g' w',
       work_setup ip port qs n_tcp n_http true g w =
         Done (failed_status (qs (Z.of_nat j)), g') w' /\
       failed_status (qs (Z.of_nat j)) <> 0 /\
       http_workers g' =
         http_workers g ++
         map (http_handle (next_qd w) (next_tid w + Z.max 0 n_tcp)) (seq 0 j) /\
       since w w' =
         flat_map (tcp_calls ip port true w) (seq 0 (Z.to_nat n_tcp)) ++
         flat_map (http_calls n_tcp (next_qd w) (next_tid w + Z.max 0 n_tcp))
                  (seq 0 j) ++
         failed_calls (next_qd w + 2 * Z.of_nat j) (qs (Z.of_nat j))) /\
  (forall init n_tcp' n_http' w0,
     compute_threads
       (since w0 (world_of (main ip port init qs n_http' n_tcp' w0))) = []).
Proof.
  intros Hok. split; [|split].
  - intros Hq. unfold work_setup, bind.
    destruct (tcp_workers_loop n_tcp n_http true g w)
      as [(? & ? & _) | (_ & g' & w1 & E1 & Hg & Hq1 & Ht & Htr)]; [lia|].
    rewrite E1. cbn [negb].
    pose proof (http_loop_done n_tcp (next_qd w1) (next_tid w1)
                  (Z.to_nat n_http) 0%nat g' w1) as E2.
    change (Z.of_nat 0) with 0 in E2. rewrite E2; [| |lia|lia].
    2: { intros k Hk. apply Hq. lia. }
    unfold ret.
    eexists _, _. split; [reflexivity|]. cbn [http_workers].
    rewrite Hg, Hq1, Ht. split; [reflexivity|].
    apply since_app. cbn [trace]. rewrite Htr, <- app_assoc. reflexivity.
  - intros j Hj Hq Hbad. unfold work_setup, bind.
    destruct (tcp_workers_loop n_tcp n_http true g w)
      as [(? & ? & _) | (_ & g' & w1 & E1 & Hg & Hq1 & Ht & Htr)]; [lia|].
    rewrite E1. cbn [negb].
    replace (Z.to_nat n_http) with (j + S (Z.to_nat n_http - S j))%nat by lia.
    destruct (http_loop_failed n_tcp (next_qd w1) (next_tid w1) j
                (Z.to_nat n_http - S j) 0%nat g' w1) as (w2 & E2 & Htr2).
    + intros k Hk. apply Hq. lia.
    + exact Hbad.
    + change (Z.of_nat 0) with 0. lia.
    + change (Z.of_nat 0) with 0. lia.
    + change (Z.of_nat 0) with 0 in E2. cbn [Nat.add] in E2, Htr2.
      rewrite E2. unfold ret.
      eexists _, _. split; [reflexivity|].
      split; [now apply failed_status_nonzero|]. cbn [http_workers].
      rewrite Hg, <- Hq1, <- Ht. split; [reflexivity|].
      apply since_app. rewrite Htr2, Htr, <- !app_assoc. reflexivity.
  - intros init n_tcp' n_http' w0.
    destruct (main_outcome init n_http' n_tcp' w0)
      as [(_ & E) | [(_ & _ & E) | [(_ & _ & w' & E & Hs)
                                   | (_ & _ & _ & w' & E & Hs)]]];
      rewrite E; cbn [world_of].
    + delta. reflexivity.
    + delta. reflexivity.
    + rewrite Hs. reflexivity.
    + rewrite Hs. rewrite !compute_threads_app, compute_threads_tcp_calls.
      reflexivity.
Qed.

(** C2 (amended).  [work_setup] always selects [ONE_TO_ONE].  It rejects
    the configuration, leaving through [exit(1)], when there is at least
    one connection worker and there are more compute workers than
    connection workers; it accepts every configuration in which the two
    counts are equal: it returns, and returns 1 unless a queue could not
    be created. *)
Theorem one_to_one_rejects_fewer_connection_workers n_tcp n_http split g w :
  (0 < n_tcp -> n_tcp < n_http ->
   work_setup ip port qs n_tcp n_http split g w = Exit 1 w) /\
  (n_tcp = n_http ->
   exists status g' w',
     work_setup ip port qs n_tcp n_http split g w = Done (status, g') w' /\
     (split = false \/ queues_succeed qs n_http -> status = 1)).
Proof.
  split.
  - apply work_setup_exit.
  - intros E. apply work_setup_returns. lia.
Qed.

(** C10 (amended).  With at least one connection worker and fewer
    connection than compute workers, [work_setup] leaves through [exit(1)]
    before it made any call, whatever [split] is; so does [main], which
    passes [split = false], after blocking the signals, initialising the
    datapath (with success) and pinning itself. *)
Theorem one_to_one_check_ignores_split n_tcp n_http split g w :
  0 < n_tcp -> n_tcp < n_http ->
  work_setup ip port qs n_tcp n_http split g w = Exit 1 w /\
  exists w', main ip port 0 qs n_http n_tcp w = Exit 1 w' /\
             since w w' = [c_sigmask true; c_init; c_pin main_thread (Some 0)].
Proof.
  intros H0 H1. split; [now apply work_setup_exit|].
  unfold main. run. rewrite work_setup_exit by assumption.
  eexists. split; [reflexivity|]. delta. reflexivity.
Qed.

End SupervisorFacts.

(** Two connection workers and two compute workers, from [boot]: the compute
    workers get the queue pairs (1, 2) and (3, 4).  When the output queue
    of the second one cannot be created, [work_setup] returns the status
    12 with the first one registered. *)
Lemma work_setup_split_creates_compute_workers_witness :
  (exists g' w',
     work_setup None 80 queues_ok 2 2 true no_workers boot = Done (1, g') w' /\
     http_workers g' = [{| in_qfd := 1; out_qfd := 2; me := 3 |};
                        {| in_qfd := 3; out_qfd := 4; me := 4 |}] /\
     compute_threads (since boot w') = [(1, 2); (3, 4)]) /\
  (exists g' w',
     work_setup None 80 second_queue_fails 2 2 true no_workers boot =
       Done (12, g') w' /\
     http_workers g' = [{| in_qfd := 1; out_qfd := 2; me := 3 |}] /\
     compute_threads (since boot w') = [(1, 2)]).
Proof.
  split.
  - destruct (work_setup_split_creates_compute_workers None 80 queues_ok 2 2
                no_workers boot) as [H _]; [right; lia|].
    destruct H as (g' & w' & E & Hg & Hs); [intros i _; reflexivity|].
    exists g', w'. split; [exact E|]. split; [exact Hg|].
    rewrite Hs. reflexivity.
  - destruct (work_setup_split_creates_compute_workers None 80 second_queue_fails
                2 2 no_workers boot) as (_ & H & _); [right; lia|].
    destruct (H 1%nat) as (g' & w' & E & _ & Hg & Hs).
    + lia.
    + intros i Hi. assert (i = 0) as -> by lia. reflexivity.
    + discriminate.
    + exists g', w'. split; [exact E|]. split; [exact Hg|].
      rewrite Hs. reflexivity.
Defined.

(** C1, as stated, fails: run through [main] with one connection worker
    and one compute worker asked for, the supervisor creates the connection
    worker, no queue and no compute thread, and stays in [pthread_join]. *)
Lemma main_creates_no_compute_worker :
  exists w',
    main None 80 0 queues_ok 1 1 boot = Blocked w' /\
    compute_threads (trace w') = [] /\
    trace w' =
      [c_sigmask true; c_init; c_pin main_thread (Some 0);
       c_pthread_create 1 (tcp_thread (tcp_args_of None 80 false 0));
       c_pin 1 (Some 1);
       c_sigmask false; c_signal; c_signal; c_join 1].
Proof.
  eexists. split; [vm_compute; reflexivity|]. split; reflexivity.
Qed.

(** One connection worker and two compute workers, in joined mode. *)
Lemma one_to_one_check_ignores_split_witness :
  0 < 1 /\ 1 < 2 /\
  work_setup None 80 queues_ok 1 2 false no_workers boot = Exit 1 boot /\
  exists w', main None 80 0 queues_ok 2 1 boot = Exit 1 w' /\
             since boot w' = [c_sigmask true; c_init; c_pin main_thread (Some 0)].
Proof.
  split; [lia|]. split; [lia|].
  apply (one_to_one_check_ignores_split None 80 queues_ok 1 2 false
           no_workers boot); lia.
Defined.

(** C10, as stated, fails: with no connection worker and one compute
    worker, [n_tcp_workers < n_http_workers] holds, the loop that holds the
    check is not entered, [work_setup] returns 1 and [main] goes on to its
    end with status 0. *)
Lemma no_tcp_workers_not_rejected :
  0 < 1 /\
  work_setup None 80 queues_ok 0 1 false no_workers boot =
    Done (1, no_workers) boot /\
  exists w', main None 80 0 queues_ok 1 0 boot = Done (0, no_workers) w'.
Proof.
  split; [lia|]. split; [vm_compute; reflexivity|].
  eexists. vm_compute. reflexivity.
Qed.

(** C2, as stated, fails in both directions: one connection worker and two
    compute workers ([num_compute_workers >= num_connection_workers]) are
    rejected, and two connection workers with one compute worker are
    accepted. *)
Lemma more_compute_workers_rejected :
  2 >= 1 /\
  work_setup None 80 queues_ok 1 2 true no_workers boot = Exit 1 boot /\
  1 < 2 /\
  exists g w',
    work_setup None 80 queues_ok 2 1 true no_workers boot = Done (1, g) w'.
Proof.
  split; [lia|]. split; [vm_compute; reflexivity|]. split; [lia|].
  eexists _, _. vm_compute. reflexivity.
Qed.

(** One connection worker with two compute workers is rejected; two with
    two are accepted. *)
Lemma one_to_one_rejects_fewer_connection_workers_witness :
  work_setup None 80 queues_ok 1 2 true no_workers boot = Exit 1 boot /\
  exists g' w',
    work_setup None 80 queues_ok 2 2 true no_workers boot = Done (1, g') w'.
Proof.
  destruct (one_to_one_rejects_fewer_connection_workers None 80 queues_ok 1 2
              true no_workers boot) as [H _].
  destruct (one_to_one_rejects_fewer_connection_workers None 80 queues_ok 2 2
              true no_workers boot) as [_ H'].
  split; [apply H; lia|].
  destruct (H' eq_refl) as (status & g' & w' & E & Hs).
  rewrite (Hs (or_intror (fun i _ => eq_refl))) in E.
  exists g', w'. exact E.
Defined.

(** What the check lets through.  With two connection workers and one
    compute worker the configuration is accepted; the second connection
    worker is created with [ONE_TO_ONE] and [whoami = 1], picks index 1 for
    its first request, and [http_workers] has no such element: its run ends
    in undefined behaviour.  With one connection worker and two compute
    workers, the configuration the check rejects, the index picked is in
    range. *)
Lemma one_to_one_accepts_unmapped_worker :
  (exists g w',
     work_setup None 80 queues_ok 2 1 true no_workers boot = Done (1, g) w' /\
     http_workers g = [{| in_qfd := 1; out_qfd := 2; me := 3 |}] /\
     In (c_pthread_create 2 (tcp_thread second_args)) (trace w') /\
     pick_worker second_args (http_workers g) 1 (answer REQ_COMPLETE) = Some 1 /\
     vec_at (http_workers g) 1 = None /\
     exists w'',
       tcp_work BAD second_args (http_workers g)
         [(connects, answer REQ_COMPLETE); (sends, answer REQ_COMPLETE)] boot =
       Undefined w'') /\
  pick_worker (tcp_args_of None 80 true 0) two_workers 1 (answer REQ_COMPLETE) = Some 0.
Proof.
  split; [|vm_compute; reflexivity].
  eexists _, _. split; [vm_compute; reflexivity|]. split; [reflexivity|].
  split; [cbn; tauto|]. split; [vm_compute; reflexivity|].
  split; [reflexivity|].
  eexists. vm_compute. reflexivity.
Qed.

(** ** One iteration of the connection worker *)

Section Iteration.
Context (BAD : string) (args : tcp_worker_args) (hw : list Worker).

(** Every branch of [iter_result] is what [tcp_work_iter] does under the
    conditions of that branch. *)
Lemma tcp_work_iter_run l a x w t l' d :
  vec_at (tokens l) (ar_idx a) = Some t ->
  iter_result BAD args hw l a x w t l' d ->
  exists w', tcp_work_iter BAD args hw l a x w = Done l' w' /\ since w w' = d.
Proof.
  intros Ht R. unfold tcp_work_iter, forward, serve, reply.
  destruct R as [Hs | Hs Hq Ho | it (Hs & _ & Ho & Hq & Hn) Hf
                | idx wk ((Hs & _ & Ho & Hq & Hn) & Hf & Hi) Hsp Hp Hw
                | ((Hs & _ & Ho & Hq & Hn) & Hf & Hi) Hsp Hp
                | ((Hs & _ & Ho & Hq & Hn) & Hf & Hi) Hsp Hp
                | ((Hs & _ & Ho & Hq & Hn) & Hf & Hi) Hsp Hp Hr
                | ((Hs & _ & Ho & Hq & Hn) & Hf & Hi) Hsp Hp Hr ].
  all: run; rewrite Ht; cbn.
  all: try (apply Z.leb_le in Hn).
  all: try (assert (Hq' : (tk_qd t =? lqd l) = false) by (now apply Z.eqb_neq)).
  all: try (assert (Hi' : incr (num_rcvd l) = Some (num_rcvd l + 1))
              by (unfold incr; apply Z.ltb_lt in Hi; now rewrite Hi)).
  - assert ((ar_status a =? 0) = false) as ->
      by (apply Z.eqb_neq; unfold ECONNRESET, ECONNABORTED in Hs; lia).
    assert (((ar_status a =? ECONNRESET) || (ar_status a =? ECONNABORTED)) = true) as ->
      by (apply orb_true_iff; rewrite !Z.eqb_eq; tauto).
    eexists; split; [reflexivity|]. delta. reflexivity.
  - rewrite Hs, Hq, (Z.eqb_refl (lqd l)), Ho. cbn. rewrite <- ?app_assoc.
    eexists; split; [reflexivity|]. delta. reflexivity.
  - rewrite Hs, Hq', Ho, Hn, Hf. cbn.
    eexists; split; [reflexivity|]. delta. reflexivity.
  - rewrite Hs, Hq', Ho, Hn, Hf, Hi', Hsp. cbn. rewrite Hp. cbn. rewrite Hw. cbn.
    eexists; split; [reflexivity|]. delta. reflexivity.
  - rewrite Hs, Hq', Ho, Hn, Hf, Hi', Hsp. cbn. rewrite Hp. cbn.
    rewrite clean_state_done. cbn.
    eexists; split; [reflexivity|]. delta. reflexivity.
  - rewrite Hs, Hq', Ho, Hn, Hf, Hi', Hsp. cbn. rewrite Hp. cbn.
    rewrite clean_state_done. cbn.
    eexists; split; [reflexivity|]. delta. reflexivity.
  - rewrite Hs, Hq', Ho, Hn, Hf, Hi', Hsp. cbn. rewrite Hp. cbn.
    unfold is_regex. destruct (a_type x); cbn; rewrite Hr; cbn;
      rewrite clean_state_done; cbn;
      (eexists; split; [reflexivity|]); delta; reflexivity.
  - rewrite Hs, Hq', Ho, Hn, Hf, Hi', Hsp. cbn. rewrite Hp. cbn.
    apply Z.eqb_neq in Hr.
    unfold is_regex. destruct (a_type x); cbn; rewrite Hr; cbn;
      rewrite clean_state_done; cbn;
      (eexists; split; [reflexivity|]); delta; reflexivity.
Qed.

(** An iteration that completes went through one of the branches of
    [iter_result]. *)
Lemma tcp_work_iter_inv l a x w l' w' :
  tcp_work_iter BAD args hw l a x w = Done l' w' ->
  exists t, vec_at (tokens l) (ar_idx a) = Some t /\
            iter_result BAD args hw l a x w t l' (since w w').
Proof.
  intros H.
  destruct (vec_at (tokens l) (ar_idx a)) as [t|] eqn:Ht;
    [| unfold tcp_work_iter in H; run_in H; rewrite Ht in H; discriminate ].
  exists t. split; [reflexivity|].
  assert (G : forall l'' d, iter_result BAD args hw l a x w t l'' d ->
                            iter_result BAD args hw l a x w t l' (since w w')).
  { intros l'' d R.
    destruct (tcp_work_iter_run l a x w t l'' d Ht R) as (w'' & E & D).
    rewrite E in H. injection H as <- <-. now rewrite D. }
  unfold tcp_work_iter, forward, serve, reply in H. run_in H.
  rewrite Ht in H. cbn in H.
  destruct (ar_status a =? 0) eqn:Es.
  - apply Z.eqb_eq in Es.
    destruct (tk_qd t =? lqd l) eqn:Eq.
    + apply Z.eqb_eq in Eq.
      destruct (tk_op t) eqn:Eo; cbn in H; try discriminate.
      eapply G, it_accept; assumption.
    + apply Z.eqb_neq in Eq.
      destruct (tk_op t) eqn:Eo; cbn in H; try discriminate.
      destruct (sga_numsegs (ar_sga a) <=? 2) eqn:En; cbn in H; try discriminate.
      apply Z.leb_le in En.
      assert (Hr : ready_pop l a t) by (repeat split; assumption).
      destruct (find (http_q_pending l) (tk_qd t)) as [it|] eqn:Ef.
      { eapply G, it_reply; eassumption. }
      unfold incr in H.
      destruct (num_rcvd l <? INT_MAX) eqn:Ei; cbn in H; try discriminate.
      apply Z.ltb_lt in Ei.
      assert (Hn : new_request l a t) by (repeat split; assumption).
      destruct (split args) eqn:Esp.
      * destruct (pick_worker args hw (num_rcvd l + 1) x) as [idx|] eqn:Ep;
          cbn in H; try discriminate.
        destruct (vec_at hw idx) as [wk|] eqn:Ew; cbn in H; try discriminate.
        eapply G, it_forward; eassumption.
      * destruct (a_pstatus x) eqn:Epar.
        -- destruct (Z.eq_dec (a_response x) NULL) as [Hnull|Hnull].
           ++ eapply G, it_no_response; assumption.
           ++ eapply G, it_served; assumption.
        -- eapply G, it_bad_request; assumption.
        -- eapply G, it_incomplete; assumption.
  - apply Z.eqb_neq in Es.
    destruct ((ar_status a =? ECONNRESET) || (ar_status a =? ECONNABORTED)) eqn:Ee;
      cbn in H; try discriminate.
    apply orb_true_iff in Ee. rewrite !Z.eqb_eq in Ee.
    eapply G, it_error; assumption.
Qed.

End Iteration.

(** ** Tokens and outstanding accepts *)

Lemma outstanding_accepts_app q ts1 ts2 :
  outstanding_accepts q (ts1 ++ ts2) =
  (outstanding_accepts q ts1 + outstanding_accepts q ts2)%nat.
Proof.
  unfold outstanding_accepts. now rewrite List.filter_app, length_app.
Qed.

Lemma outstanding_accepts_delete q ts : forall (i : nat) t,
  ts !! i = Some t ->
  outstanding_accepts q ts =
  ((if is_accept_on q t then 1 else 0) + outstanding_accepts q (delete i ts))%nat.
Proof.
  unfold outstanding_accepts.
  induction ts as [|u ts IH]; intros i t Hi; [discriminate|].
  destruct i as [|i]; cbn in Hi |- *.
  - injection Hi as ->. now destruct (is_accept_on q t).
  - destruct (is_accept_on q u); cbn [length]; rewrite (IH i t Hi);
      destruct (is_accept_on q t); now rewrite ?Nat.add_succ_r.
Qed.

Lemma outstanding_accepts_erase q ts i t :
  vec_at ts i = Some t ->
  outstanding_accepts q ts =
  ((if is_accept_on q t then 1 else 0) + outstanding_accepts q (vec_erase ts i))%nat.
Proof.
  unfold vec_at, vec_erase. destruct (i <? 0); [discriminate|].
  apply outstanding_accepts_delete.
Qed.

Lemma is_accept_on_other q t : tk_qd t <> q -> is_accept_on q t = false.
Proof.
  intros H. unfold is_accept_on. apply Z.eqb_neq in H. rewrite H.
  apply andb_false_r.
Qed.

Lemma is_accept_on_accept t :
  tk_op t = DMTR_OPC_ACCEPT -> is_accept_on (tk_qd t) t = true.
Proof. intros H. unfold is_accept_on. now rewrite H, Z.eqb_refl. Qed.

(** ** Requests and the tests of the loop *)

Lemma new_request_token l a t :
  new_request l a t -> vec_at (tokens l) (ar_idx a) = Some t.
Proof. now intros ((_ & H & _) & _). Qed.

Lemma ready_pop_token l a t :
  ready_pop l a t -> vec_at (tokens l) (ar_idx a) = Some t.
Proof. now intros (_ & H & _). Qed.

Lemma new_request_is_request l a t : new_request l a t -> is_request l a = true.
Proof.
  intros ((Hs & Ht & _ & Hq & _) & Hf & _). unfold is_request.
  apply Z.eqb_neq in Hq. now rewrite Hs, Ht, Hq, Hf.
Qed.


Lemma listener_error_ok l a : ar_status a = 0 -> listener_error l a = false.
Proof. intros H. unfold listener_error. now rewrite H. Qed.

Lemma is_request_listener l a t :
  vec_at (tokens l) (ar_idx a) = Some t -> tk_qd t = lqd l -> is_request l a = false.
Proof.
  intros Ht Hq. unfold is_request. rewrite Ht, Hq, Z.eqb_refl.
  apply andb_false_r.
Qed.

(** ** Invariants of the connection worker *)

Section Invariants.
Context (BAD : string) (args : tcp_worker_args) (hw : list Worker).

Lemma tcp_setup_done w :
  tcp_setup args w =
  Done {| tokens := [tok0 w DMTR_OPC_ACCEPT (next_qd w)]; http_q_pending := [];
          num_rcvd := 0; lqd := next_qd w |}
       {| next_token := next_token w + 1; next_qd := next_qd w + 1;
          next_tid := next_tid w;
          trace := trace w ++
                   [c_socket (next_qd w); c_lqds_push (next_qd w);
                    c_bind (next_qd w) (saddr args); c_listen (next_qd w) 10;
                    c_accept (tok0 w DMTR_OPC_ACCEPT (next_qd w))] |}.
Proof. unfold tcp_setup. run. rewrite <- !app_assoc. reflexivity. Qed.

Lemma iter_result_lqd l a x w t l' d :
  iter_result BAD args hw l a x w t l' d -> lqd l' = lqd l.
Proof. now destruct 1. Qed.

(** No branch but the error branch on the listening descriptor changes the
    number of accepts outstanding on it. *)
Lemma iter_result_accepts l a x w t l' d :
  vec_at (tokens l) (ar_idx a) = Some t ->
  listener_error l a = false ->
  iter_result BAD args hw l a x w t l' d ->
  outstanding_accepts (lqd l) (tokens l') = outstanding_accepts (lqd l) (tokens l).
Proof.
  intros Ht He R. rewrite (outstanding_accepts_erase _ _ _ _ Ht).
  unfold listener_error in He. rewrite Ht in He.
  destruct R as [Hs | Hs Hq Ho | it (Hs & _ & Ho & Hq & Hn) Hf
                | idx wk ((Hs & _ & Ho & Hq & Hn) & Hf & Hi) Hsp Hp Hw
                | ((Hs & _ & Ho & Hq & Hn) & Hf & Hi) Hsp Hp
                | ((Hs & _ & Ho & Hq & Hn) & Hf & Hi) Hsp Hp
                | ((Hs & _ & Ho & Hq & Hn) & Hf & Hi) Hsp Hp Hr
                | ((Hs & _ & Ho & Hq & Hn) & Hf & Hi) Hsp Hp Hr ];
    cbn [tokens with_tokens]; rewrite ?outstanding_accepts_app.
  - assert (Hq : tk_qd t <> lqd l).
    { assert ((ar_status a =? 0) = false) as E
        by (apply Z.eqb_neq; unfold ECONNRESET, ECONNABORTED in Hs; lia).
      rewrite E in He. cbn in He. now apply Z.eqb_neq. }
    now rewrite is_accept_on_other.
  - assert (is_accept_on (lqd l) t = true) as ->
      by (rewrite <- Hq; now apply is_accept_on_accept).
    cbn. rewrite Z.eqb_refl. cbn. apply Nat.add_comm.
  - rewrite is_accept_on_other by assumption. cbn. apply Nat.add_0_r.
  - rewrite is_accept_on_other by assumption. cbn. apply Nat.add_0_r.
  - now rewrite is_accept_on_other.
  - now rewrite is_accept_on_other.
  - now rewrite is_accept_on_other.
  - rewrite is_accept_on_other by assumption. cbn. apply Nat.add_0_r.
Qed.

(** The counter moves by one exactly on the arrivals the loop takes for
    new requests. *)
Lemma iter_result_num_rcvd l a x w t l' d :
  vec_at (tokens l) (ar_idx a) = Some t ->
  iter_result BAD args hw l a x w t l' d ->
  num_rcvd l' = num_rcvd l + (if is_request l a then 1 else 0).
Proof.
  intros Ht R. unfold is_request. rewrite Ht.
  destruct R as [Hs | Hs Hq Ho | it (Hs & _ & Ho & Hq & Hn) Hf
                | idx wk ((Hs & _ & Ho & Hq & Hn) & Hf & Hi) Hsp Hp Hw
                | ((Hs & _ & Ho & Hq & Hn) & Hf & Hi) Hsp Hp
                | ((Hs & _ & Ho & Hq & Hn) & Hf & Hi) Hsp Hp
                | ((Hs & _ & Ho & Hq & Hn) & Hf & Hi) Hsp Hp Hr
                | ((Hs & _ & Ho & Hq & Hn) & Hf & Hi) Hsp Hp Hr ];
    cbn [num_rcvd with_tokens].
  all: try (assert (Hq' : (tk_qd t =? lqd l) = false) by (now apply Z.eqb_neq)).
  - assert ((ar_status a =? 0) = false) as ->
      by (apply Z.eqb_neq; unfold ECONNRESET, ECONNABORTED in Hs; lia).
    cbn. lia.
  - rewrite Hs, Hq, (Z.eqb_refl (lqd l)). cbn. lia.
  - rewrite Hs, Hq', Hf. cbn. lia.
  - rewrite Hs, Hq', Hf. cbn. lia.
  - rewrite Hs, Hq', Hf. reflexivity.
  - rewrite Hs, Hq', Hf. reflexivity.
  - rewrite Hs, Hq', Hf. reflexivity.
  - rewrite Hs, Hq', Hf. reflexivity.
Qed.

Lemma waits_at_counter k healthy l w :
  waits_at BAD args hw k healthy l w -> num_rcvd l = Z.of_nat k.
Proof.
  induction 1 as [w l w' Hs | k healthy l w a x l' w' _ IH Hi].
  - rewrite tcp_setup_done in Hs. now injection Hs as <- <-.
  - destruct (tcp_work_iter_inv BAD args hw l a x w l' w' Hi) as (t & Ht & R).
    rewrite (iter_result_num_rcvd _ _ _ _ _ _ _ Ht R), IH.
    destruct (is_request l a); lia.
Qed.

Lemma waits_at_accepts k l w :
  waits_at BAD args hw k true l w ->
  outstanding_accepts (lqd l) (tokens l) = 1%nat.
Proof.
  remember true as healthy eqn:Hh. intros H. revert Hh.
  induction H as [w l w' Hs | k healthy l w a x l' w' _ IH Hi]; intros Hh.
  - rewrite tcp_setup_done in Hs. injection Hs as <- <-.
    cbn. rewrite Z.eqb_refl. reflexivity.
  - apply andb_true_iff in Hh as [-> He].
    apply negb_true_iff in He.
    destruct (tcp_work_iter_inv BAD args hw l a x w l' w' Hi) as (t & Ht & R).
    rewrite (iter_result_lqd _ _ _ _ _ _ _ R).
    rewrite (iter_result_accepts _ _ _ _ _ _ _ Ht He R). now apply IH.
Qed.

(** The success path: setup submits one accept on the listening
    descriptor; at every wait reached while no error completion hit the
    listening descriptor exactly one accept is outstanding on it, and a
    successful accept completion there removes its token, submits the
    first pop on the new connection and exactly one fresh accept on the
    listening descriptor. *)
Lemma accept_completion_rearms :
  (forall w, exists l w',
     tcp_setup args w = Done l w' /\
     accepts (since w w') = [lqd l] /\
     waits_at BAD args hw 0 true l w') /\
  (forall k l w,
     waits_at BAD args hw k true l w ->
     outstanding_accepts (lqd l) (tokens l) = 1%nat /\
     forall a x t,
       ar_status a = 0 ->
       vec_at (tokens l) (ar_idx a) = Some t ->
       tk_qd t = lqd l -> tk_op t = DMTR_OPC_ACCEPT ->
       exists l' w',
         tcp_work_iter BAD args hw l a x w = Done l' w' /\
         accepts (since w w') = [lqd l] /\
         tokens l' = vec_erase (tokens l) (ar_idx a) ++
                     [tok0 w DMTR_OPC_POP (ar_ares_qd a);
                      tok1 w DMTR_OPC_ACCEPT (lqd l)] /\
         waits_at BAD args hw k true l' w').
Proof.
  split.
  - intros w. eexists _, _. split; [apply tcp_setup_done|].
    split; [delta; reflexivity|].
    apply waits_setup with w. apply tcp_setup_done.
  - intros k l w Hw. split; [now apply waits_at_accepts with k w|].
    intros a x t Hs Ht Hq Ho.
    destruct (tcp_work_iter_run BAD args hw l a x w t _ _ Ht
                (it_accept _ _ _ _ _ _ _ _ Hs Hq Ho)) as (w' & E & D).
    eexists _, w'. split; [exact E|]. rewrite D.
    split; [reflexivity|]. split; [reflexivity|].
    pose proof (waits_iter BAD args hw k true l w a x _ w' Hw E) as W.
    rewrite (is_request_listener l a t Ht Hq) in W.
    rewrite (listener_error_ok l a Hs) in W. exact W.
Qed.

(** With no accept outstanding on the listening descriptor, an iteration
    leaves none outstanding: an accept is submitted only when an accept
    completes. *)
Lemma iter_keeps_no_accept l a x w l' w' :
  tcp_work_iter BAD args hw l a x w = Done l' w' ->
  outstanding_accepts (lqd l) (tokens l) = 0%nat ->
  lqd l' = lqd l /\ outstanding_accepts (lqd l') (tokens l') = 0%nat.
Proof.
  intros Hi H0.
  destruct (tcp_work_iter_inv BAD args hw l a x w l' w' Hi) as (t & Ht & R).
  rewrite (iter_result_lqd _ _ _ _ _ _ _ R). split; [reflexivity|].
  destruct (listener_error l a) eqn:He.
  - pose proof (outstanding_accepts_erase (lqd l) _ _ _ Ht) as E.
    rewrite H0 in E.
    unfold listener_error in He.
    apply andb_true_iff in He as [Hs _]. apply negb_true_iff, Z.eqb_neq in Hs.
    destruct R as [_ | Hs0 Hq Ho | it (Hs0 & _) Hf
                  | idx wk ((Hs0 & _) & _) Hsp Hp Hw
                  | ((Hs0 & _) & _) Hsp Hp | ((Hs0 & _) & _) Hsp Hp
                  | ((Hs0 & _) & _) Hsp Hp Hr | ((Hs0 & _) & _) Hsp Hp Hr ];
      try contradiction.
    cbn [tokens with_tokens]. lia.
  - rewrite (iter_result_accepts _ _ _ _ _ _ _ Ht He R). exact H0.
Qed.

Lemma loop_keeps_no_accept input : forall l w l' w',
  tcp_loop BAD args hw input l w = Done l' w' ->
  outstanding_accepts (lqd l) (tokens l) = 0%nat ->
  lqd l' = lqd l /\ outstanding_accepts (lqd l') (tokens l') = 0%nat.
Proof.
  induction input as [|[a x] rest IH]; intros l w l' w' H H0; cbn in H.
  - injection H as <- <-. now split.
  - unfold bind in H.
    destruct (tcp_work_iter BAD args hw l a x w) as [l1 w1| | | |] eqn:E;
      try discriminate H.
    destruct (iter_keeps_no_accept _ _ _ _ _ _ E H0) as [Hq H1].
    destruct (IH _ _ _ _ H H1) as [Hq' H2]. split; [congruence | exact H2].
Qed.

(** C6: the claim fails on the error path of the loop.  A worker that
    waits with exactly one accept outstanding on its listening descriptor,
    as every worker does after setup, and whose accept completes with
    ECONNRESET or ECONNABORTED, closes the listening descriptor and drops
    the token without submitting a fresh accept: at its next wait, and at
    every wait after it, no accept is outstanding on the listening
    descriptor. *)
Theorem listener_error_leaves_no_accept k l w a x t :
  waits_at BAD args hw k true l w ->
  vec_at (tokens l) (ar_idx a) = Some t ->
  tk_qd t = lqd l -> tk_op t = DMTR_OPC_ACCEPT ->
  ar_status a = ECONNRESET \/ ar_status a = ECONNABORTED ->
  outstanding_accepts (lqd l) (tokens l) = 1%nat /\
  exists l' w',
    tcp_work_iter BAD args hw l a x w = Done l' w' /\
    since w w' = [c_wait_any (tokens l); c_close (lqd l)] /\
    waits_at BAD args hw k false l' w' /\
    lqd l' = lqd l /\
    outstanding_accepts (lqd l') (tokens l') = 0%nat /\
    forall input l'' w'',
      tcp_loop BAD args hw input l' w' = Done l'' w'' ->
      outstanding_accepts (lqd l'') (tokens l'') = 0%nat.
Proof.
  intros Hw Ht Hq Ho Hs.
  pose proof (waits_at_accepts k l w Hw) as H1.
  split; [exact H1|].
  destruct (tcp_work_iter_run BAD args hw l a x w t _ _ Ht
              (it_error _ _ _ _ _ _ _ _ Hs)) as (w' & E & D).
  assert (Hne : (ar_status a =? 0) = false)
    by (apply Z.eqb_neq; unfold ECONNRESET, ECONNABORTED in Hs; lia).
  assert (H0 : outstanding_accepts (lqd l)
                 (vec_erase (tokens l) (ar_idx a)) = 0%nat).
  { pose proof (outstanding_accepts_erase (lqd l) _ _ _ Ht) as Er.
    rewrite <- Hq in Er at 2. rewrite (is_accept_on_accept t Ho), H1 in Er. lia. }
  eexists _, w'. split; [exact E|]. split; [now rewrite D, Hq|].
  split.
  { pose proof (waits_iter BAD args hw k true l w a x _ w' Hw E) as W.
    rewrite (is_request_listener l a t Ht Hq) in W.
    replace (listener_error l a) with true in W; [exact W|].
    unfold listener_error. now rewrite Ht, Hne, Hq, Z.eqb_refl. }
  split; [reflexivity|]. split; [exact H0|].
  intros input l'' w'' Hl.
  now destruct (loop_keeps_no_accept input _ _ _ _ Hl H0).
Qed.

End Invariants.

(** The worker that has accepted one client waits with one accept
    outstanding. *)
(** ** The compute worker *)

Section ComputeWorker.
Context (BAD : string).

(** On a successful pop of an array with two segments, the compute worker
    completes its iteration with the calls of [http_answer]. *)
Lemma http_work_iter_run me a x w :
  ar_status a = 0 -> sga_numsegs (ar_sga a) = 2 ->
  exists w',
    http_work_iter BAD me a x w = Done tt w' /\
    since w w' = [c_pop (tok0 w DMTR_OPC_POP (in_qfd me));
                  c_wait (tok0 w DMTR_OPC_POP (in_qfd me))] ++
                 http_answer BAD me a x w.
Proof.
  intros Hs Hn. unfold http_work_iter, http_answer. run. rewrite Hs, Hn. cbn.
  destruct (a_pstatus x); cbn.
  - unfold is_regex.
    destruct (a_type x); cbn; destruct (a_response x =? NULL); cbn;
      rewrite clean_state_done; (eexists; split; [reflexivity|]); delta; reflexivity.
  - rewrite clean_state_done. eexists; split; [reflexivity|]. delta. reflexivity.
  - rewrite clean_state_done. eexists; split; [reflexivity|]. delta. reflexivity.
Qed.

(** C4 (amended).  For a request the compute worker parses as complete and
    the builder answers, the array pushed to the output queue has
    [sga_numsegs] equal to 1; its segment 0 is the response the builder
    returned, with its size, and the length of its segment 1 is the length
    of segment 1 of the request, the client descriptor. *)
Theorem http_work_complete_response me a x w :
  ar_status a = 0 -> sga_numsegs (ar_sga a) = 2 ->
  a_pstatus x = REQ_COMPLETE -> a_response x <> NULL ->
  exists w' resp,
    http_work_iter BAD me a x w = Done tt w' /\
    pushes (since w w') = [(out_qfd me, resp)] /\
    sga_numsegs resp = 1 /\
    sgaseg_buf (sga_segs0 resp) = a_response x /\
    sgaseg_len (sga_segs0 resp) = to_u32 (a_response_size x) /\
    sgaseg_len (sga_segs1 resp) = sgaseg_len (sga_segs1 (ar_sga a)).
Proof.
  intros Hs Hn Hp Hr.
  destruct (http_work_iter_run me a x w Hs Hn) as (w' & E & D).
  exists w'. eexists. split; [exact E|]. rewrite D. unfold http_answer.
  rewrite Hp. apply Z.eqb_neq in Hr. rewrite Hr.
  cbn. rewrite pushes_frees. repeat split.
Qed.

End ComputeWorker.

(** The second compute worker serves the request of client 5. *)
Lemma http_work_complete_response_witness :
  exists w' resp,
    http_work_iter BAD second_worker
      (arrive 0 0 0 (envelope 5 request)) (answer REQ_COMPLETE) boot = Done tt w' /\
    pushes (since boot w') = [(23, resp)] /\
    sga_numsegs resp = 1 /\
    sgaseg_buf (sga_segs0 resp) = 700 /\
    sgaseg_len (sga_segs0 resp) = to_u32 120 /\
    sgaseg_len (sga_segs1 resp) = 5.
Proof.
  apply (http_work_complete_response BAD second_worker
           (arrive 0 0 0 (envelope 5 request)) (answer REQ_COMPLETE) boot);
    [reflexivity | reflexivity | reflexivity | discriminate].
Defined.

(** C4, as stated, fails: for the request of client 5 parsed as complete,
    the array the compute worker pushes has [sga_numsegs] equal to 1, not
    2. *)
Lemma http_work_complete_numsegs_is_one :
  exists w' resp,
    http_work_iter BAD second_worker
      (arrive 0 0 0 (envelope 5 request)) (answer REQ_COMPLETE) boot = Done tt w' /\
    pushes (since boot w') = [(23, resp)] /\
    sga_numsegs resp = 1 /\ sga_numsegs resp <> 2.
Proof.
  eexists _, _. split; [vm_compute; reflexivity|].
  split; [vm_compute; reflexivity|].
  split; [reflexivity | discriminate].
Qed.

(** ** The connection worker *)

Section ConnectionWorker.
Context (BAD : string) (args : tcp_worker_args) (hw : list Worker).

(** C3: in joined mode, for a popped request whose parse yields an error,
    the connection worker frees the request buffer, pushes the fixed
    response to the client and waits for the push; there the branch ends:
    the response buffer is not freed, no pop is submitted on the client, and
    the token set is the former one less the completed token. *)
Theorem joined_parse_error_not_rearmed l a x w t :
  split args = false -> new_request l a t -> a_pstatus x = REQ_ERROR ->
  exists l' w',
    tcp_work_iter BAD args hw l a x w = Done l' w' /\
    pushes (since w w') = [(tk_qd t, bad_response BAD 1 x)] /\
    frees (since w w') = sga_buf (ar_sga a) :: state_frees (a_state x) /\
    pops (since w w') = [] /\
    tokens l' = vec_erase (tokens l) (ar_idx a).
Proof.
  intros Hsp Hn Hp.
  destruct (tcp_work_iter_run BAD args hw l a x w t _ _
              (new_request_token _ _ _ Hn) (it_bad_request _ _ _ _ _ _ _ _ Hn Hsp Hp))
    as (w' & E & D).
  eexists _, w'. split; [exact E|]. rewrite D. cbn [tokens].
  unfold state_frees.
  destruct (url (a_state x) =? NULL), (body (a_state x) =? NULL); repeat split.
Qed.

(** The sibling branch: a request parsed as complete and answered by the
    builder has its buffer freed, its response pushed and freed, and its
    client re-armed. *)
Lemma joined_complete_rearmed l a x w t :
  split args = false -> new_request l a t ->
  a_pstatus x = REQ_COMPLETE -> a_response x <> NULL ->
  exists l' w',
    tcp_work_iter BAD args hw l a x w = Done l' w' /\
    pushes (since w w') = [(tk_qd t, ok_response x)] /\
    frees (since w w') =
      sga_buf (ar_sga a) :: a_response x :: state_frees (a_state x) /\
    pops (since w w') = [tk_qd t] /\
    tokens l' = vec_erase (tokens l) (ar_idx a) ++ [tok1 w DMTR_OPC_POP (tk_qd t)].
Proof.
  intros Hsp Hn Hp Hr.
  destruct (tcp_work_iter_run BAD args hw l a x w t _ _
              (new_request_token _ _ _ Hn) (it_served _ _ _ _ _ _ _ _ Hn Hsp Hp Hr))
    as (w' & E & D).
  eexists _, w'. split; [exact E|]. rewrite D. cbn [tokens].
  unfold state_frees.
  destruct (url (a_state x) =? NULL), (body (a_state x) =? NULL); repeat split.
Qed.

(** C9: on the parse-incomplete path the request buffer is not freed,
    neither by the connection worker in joined mode nor by the compute
    worker: the only addresses freed are those [clean_state] frees. *)
Theorem incomplete_request_not_freed l a x w t me a0 w0 :
  a_pstatus x = REQ_INCOMPLETE ->
  (split args = false -> new_request l a t ->
   exists l' w',
     tcp_work_iter BAD args hw l a x w = Done l' w' /\
     frees (since w w') = state_frees (a_state x)) /\
  (ar_status a0 = 0 -> sga_numsegs (ar_sga a0) = 2 ->
   exists w',
     http_work_iter BAD me a0 x w0 = Done tt w' /\
     frees (since w0 w') = state_frees (a_state x)).
Proof.
  intros Hp. split.
  - intros Hsp Hn.
    destruct (tcp_work_iter_run BAD args hw l a x w t _ _
                (new_request_token _ _ _ Hn) (it_incomplete _ _ _ _ _ _ _ _ Hn Hsp Hp))
      as (w' & E & D).
    eexists _, w'. split; [exact E|]. rewrite D.
    unfold state_frees.
    destruct (url (a_state x) =? NULL), (body (a_state x) =? NULL); reflexivity.
  - intros Hs Hn.
    destruct (http_work_iter_run BAD me a0 x w0 Hs Hn) as (w' & E & D).
    exists w'. split; [exact E|]. rewrite D. unfold http_answer. rewrite Hp.
    unfold state_frees.
    destruct (url (a_state x) =? NULL), (body (a_state x) =? NULL); reflexivity.
Qed.

(** The reply path of any connection worker sends a compute reply to the
    descriptor in its envelope, and re-arms that descriptor. *)
Lemma reply_goes_to_envelope args' hw' l a x w t it :
  ready_pop l a t -> find (http_q_pending l) (tk_qd t) = Some it ->
  exists l' w',
    tcp_work_iter BAD args' hw' l a x w = Done l' w' /\
    pushes (since w w') = [(client_of (ar_sga a), ar_sga a)] /\
    pops (since w w') = [client_of (ar_sga a)].
Proof.
  intros Hr Hf.
  destruct (tcp_work_iter_run BAD args' hw' l a x w t _ _
              (ready_pop_token _ _ _ Hr) (it_reply _ _ _ _ _ _ _ _ it Hr Hf))
    as (w' & E & D).
  eexists _, w'. split; [exact E|]. rewrite D. split; reflexivity.
Qed.

(** C5.  In split mode, a request popped from client descriptor [q] is
    pushed to the input queue of the chosen compute worker with
    [sga_numsegs = 2] and [q] in the length of segment 1; whatever the
    compute worker pushes for it goes to its output queue with that length
    unchanged; and a connection worker that pops this reply from a pending
    compute queue pushes it to [q] and submits the next pop on [q]. *)
Theorem response_returns_to_origin l a x w t idx wk :
  split args = true -> new_request l a t ->
  - 2 ^ 31 <= tk_qd t < 2 ^ 31 ->
  pick_worker args hw (num_rcvd l + 1) x = Some idx ->
  vec_at hw idx = Some wk ->
  let env := envelope (tk_qd t) (ar_sga a) in
  exists l1 w1,
    tcp_work_iter BAD args hw l a x w = Done l1 w1 /\
    pushes (since w w1) = [(in_qfd wk, env)] /\
    pops (since w w1) = [out_qfd wk] /\
    sga_numsegs env = 2 /\
    sgaseg_len (sga_segs1 env) = to_u32 (tk_qd t) /\
    sga_segs0 env = sga_segs0 (ar_sga a) /\
    forall a2 x2 w2, ar_status a2 = 0 -> ar_sga a2 = env ->
      exists w2',
        http_work_iter BAD wk a2 x2 w2 = Done tt w2' /\
        ((pushes (since w2 w2') = [] /\
          (a_pstatus x2 = REQ_INCOMPLETE \/
           (a_pstatus x2 = REQ_COMPLETE /\ a_response x2 = NULL))) \/
         exists resp,
           pushes (since w2 w2') = [(out_qfd wk, resp)] /\
           sgaseg_len (sga_segs1 resp) = sgaseg_len (sga_segs1 env) /\
           forall args3 hw3 l3 a3 x3 w3 t3 it,
             ready_pop l3 a3 t3 ->
             find (http_q_pending l3) (tk_qd t3) = Some it ->
             ar_sga a3 = resp ->
             exists l4 w4,
               tcp_work_iter BAD args3 hw3 l3 a3 x3 w3 = Done l4 w4 /\
               pushes (since w3 w4) = [(tk_qd t, resp)] /\
               pops (since w3 w4) = [tk_qd t]).
Proof.
  intros Hsp Hn Hq Hp Hv env.
  destruct (tcp_work_iter_run BAD args hw l a x w t _ _
              (new_request_token _ _ _ Hn) (it_forward _ _ _ _ _ _ _ _ _ _ Hn Hsp Hp Hv))
    as (w1 & E & D).
  eexists _, w1.
  split; [exact E|]. rewrite D.
  do 5 (split; [reflexivity|]).
  intros a2 x2 w2 Hs2 Ha2.
  destruct (http_work_iter_run BAD wk a2 x2 w2 Hs2) as (w2' & E2 & D2).
  { now rewrite Ha2. }
  exists w2'. split; [exact E2|]. rewrite D2. unfold http_answer. rewrite Ha2.
  assert (Hback : forall resp,
            sgaseg_len (sga_segs1 resp) = to_u32 (tk_qd t) ->
            forall args3 hw3 l3 a3 x3 w3 t3 it,
              ready_pop l3 a3 t3 ->
              find (http_q_pending l3) (tk_qd t3) = Some it ->
              ar_sga a3 = resp ->
              exists l4 w4,
                tcp_work_iter BAD args3 hw3 l3 a3 x3 w3 = Done l4 w4 /\
                pushes (since w3 w4) = [(tk_qd t, resp)] /\
                pops (since w3 w4) = [tk_qd t]).
  { intros resp Hlen args3 hw3 l3 a3 x3 w3 t3 it Hr3 Hf3 Ha3.
    destruct (reply_goes_to_envelope args3 hw3 l3 a3 x3 w3 t3 it Hr3 Hf3)
      as (l4 & w4 & E4 & P4 & Q4).
    exists l4, w4. split; [exact E4|].
    rewrite P4, Q4. unfold client_of. rewrite Ha3, Hlen.
    rewrite to_int_to_u32 by assumption. split; reflexivity. }
  destruct (a_pstatus x2) eqn:Ep.
  - destruct (Z.eqb_spec (a_response x2) NULL) as [Hnull|Hnull]; cbn.
    + left. rewrite pushes_frees. split; [reflexivity|]. right. now split.
    + right. eexists. rewrite pushes_frees.
      split; [reflexivity|]. split; [reflexivity|]. now apply Hback.
  - right. cbn. eexists. rewrite pushes_frees.
    split; [reflexivity|]. split; [reflexivity|]. now apply Hback.
  - left. cbn. rewrite pushes_frees. split; [reflexivity|]. now left.
Qed.


(** C8.  In split mode under [RR] with [N > 0] compute workers, the new
    request a connection worker receives after [k] earlier ones, counted
    over all its connections, is pushed to the input queue of compute
    worker [(k + 1) mod N]. *)
Theorem round_robin_kth_request k healthy l w a x t :
  waits_at BAD args hw k healthy l w ->
  split args = true -> filter args = RR -> hw <> [] ->
  new_request l a t ->
  exists wk l' w',
    hw !! (S k mod length hw)%nat = Some wk /\
    tcp_work_iter BAD args hw l a x w = Done l' w' /\
    pushes (since w w') = [(in_qfd wk, envelope (tk_qd t) (ar_sga a))] /\
    waits_at BAD args hw (S k) healthy l' w'.
Proof.
  intros Hw Hsp Hf Hne Hn.
  pose proof (waits_at_counter BAD args hw k healthy l w Hw) as Hk.
  assert (Hlen : (length hw <> 0)%nat) by (destruct hw; [congruence | discriminate]).
  destruct (lookup_lt_is_Some_2 hw (S k mod length hw)) as [wk Hwk].
  { now apply Nat.mod_upper_bound. }
  assert (Hp : pick_worker args hw (num_rcvd l + 1) x =
               Some (Z.of_nat (S k mod length hw))).
  { unfold pick_worker. rewrite Hf, Hk.
    replace (Z.of_nat k + 1) with (Z.of_nat (S k)) by lia.
    apply rem_size_round_robin; [assumption|].
    destruct Hn as (_ & _ & Hi). lia. }
  assert (Hv : vec_at hw (Z.of_nat (S k mod length hw)) = Some wk)
    by now rewrite vec_at_nat.
  destruct (tcp_work_iter_run BAD args hw l a x w t _ _
              (new_request_token _ _ _ Hn)
              (it_forward _ _ _ _ _ _ _ _ _ _ Hn Hsp Hp Hv))
    as (w' & E & D).
  eexists wk, _, w'. split; [exact Hwk|]. split; [exact E|].
  split; [rewrite D; reflexivity|].
  pose proof (waits_iter BAD args hw k healthy l w a x _ w' Hw E) as W.
  rewrite (new_request_is_request l a t Hn) in W.
  rewrite (listener_error_ok l a (proj1 (proj1 Hn))) in W.
  now rewrite andb_true_r in W.
Qed.

End ConnectionWorker.

(** ** The theorems on concrete runs *)

Lemma armed_waits args :
  saddr args = any_addr ->
  waits_at BAD args two_workers 0 true armed_locals armed_world.
Proof.
  intros Ha.
  apply (waits_iter BAD args two_workers 0 true fresh_locals fresh_world
           connects (answer REQ_COMPLETE) armed_locals armed_world).
  - apply waits_setup with boot. rewrite tcp_setup_done, Ha. reflexivity.
  - unfold tcp_work_iter. run. reflexivity.
Qed.

Lemma sends_is_new_request : new_request armed_locals sends client_pop.
Proof.
  repeat split; try (vm_compute; reflexivity); try discriminate;
    cbn; unfold INT_MAX; lia.
Qed.

(** The worker that accepted client 5 waits on the pop of the client and
    on its accept.  The accept completes with ECONNABORTED: the listening
    descriptor 1 is closed, and the worker waits on the pop alone, then and
    after the client's request has been served. *)
Lemma listener_error_leaves_no_accept_witness :
  outstanding_accepts (lqd armed_locals) (tokens armed_locals) = 1%nat /\
  exists l' w',
    tcp_work_iter BAD joined_args two_workers armed_locals
      (arrive ECONNABORTED 1 0 request) (answer REQ_COMPLETE) armed_world =
    Done l' w' /\
    since armed_world w' = [c_wait_any [client_pop; next_accept]; c_close 1] /\
    tokens l' = [client_pop] /\
    outstanding_accepts (lqd l') (tokens l') = 0%nat /\
    exists l'' w'',
      tcp_loop BAD joined_args two_workers [(sends, answer REQ_COMPLETE)] l' w' =
      Done l'' w'' /\
      outstanding_accepts (lqd l'') (tokens l'') = 0%nat.
Proof.
  destruct (listener_error_leaves_no_accept BAD joined_args two_workers 0
              armed_locals armed_world (arrive ECONNABORTED 1 0 request)
              (answer REQ_COMPLETE) next_accept (armed_waits joined_args eq_refl)
              eq_refl eq_refl eq_refl (or_intror eq_refl))
    as (H1 & l' & w' & E & D & _ & _ & H0 & Hall).
  split; [exact H1|]. exists l', w'.
  assert (E' : tcp_work_iter BAD joined_args two_workers armed_locals
                 (arrive ECONNABORTED 1 0 request) (answer REQ_COMPLETE)
                 armed_world =
               Done {| tokens := [client_pop]; http_q_pending := [];
                       num_rcvd := 0; lqd := 1 |}
                    {| next_token := 4; next_qd := 2; next_tid := 1;
                       trace := trace armed_world ++
                                [c_wait_any [client_pop; next_accept];
                                 c_close 1] |})
    by (vm_compute; reflexivity).
  rewrite E' in E. injection E as <- <-.
  split; [exact E'|]. split; [exact D|]. split; [reflexivity|].
  split; [exact H0|].
  match goal with
  | |- context [tcp_loop ?b ?ar ?h ?i ?l1 ?w1] =>
      destruct (tcp_loop b ar h i l1 w1) as [l2 w2| | | |] eqn:E2
  end.
  2-5: vm_compute in E2; discriminate E2.
  exists l2, w2. split; [reflexivity|]. exact (Hall _ _ _ E2).
Defined.

(** Client 5 sends a request the parser rejects: the buffers at 500 (the
    request) and 600 (the url) are freed, the response at 800 is not, and the
    only token left is the accept. *)
Lemma joined_parse_error_not_rearmed_witness :
  exists l' w',
    tcp_work_iter BAD joined_args two_workers armed_locals sends
      (answer REQ_ERROR) armed_world = Done l' w' /\
    pushes (since armed_world w') = [(5, bad_response BAD 1 (answer REQ_ERROR))] /\
    frees (since armed_world w') = [500; 600] /\
    pops (since armed_world w') = [] /\
    tokens l' = [next_accept].
Proof.
  apply (joined_parse_error_not_rearmed BAD joined_args two_workers armed_locals
           sends (answer REQ_ERROR) armed_world client_pop);
    [reflexivity | exact sends_is_new_request | reflexivity].
Defined.

(** Client 5 sends an incomplete request: only the url at 600 is freed, the
    request buffer at 500 is not. *)
Lemma incomplete_request_not_freed_witness :
  (exists l' w',
     tcp_work_iter BAD joined_args two_workers armed_locals sends
       (answer REQ_INCOMPLETE) armed_world = Done l' w' /\
     frees (since armed_world w') = [600]) /\
  (exists w',
     http_work_iter BAD second_worker (arrive 0 0 0 (envelope 5 request))
       (answer REQ_INCOMPLETE) boot = Done tt w' /\
     frees (since boot w') = [600]) /\
  times_freed (sga_buf request) (map c_free [600]) = 0%nat.
Proof.
  destruct (incomplete_request_not_freed BAD joined_args two_workers armed_locals
              sends (answer REQ_INCOMPLETE) armed_world client_pop second_worker
              (arrive 0 0 0 (envelope 5 request)) boot eq_refl) as [H1 H2].
  split; [apply H1; [reflexivity | exact sends_is_new_request]|].
  split; [apply H2; reflexivity | reflexivity].
Defined.

(** The request of client 5 goes to the second compute worker (queues 22
    and 23) and its response comes back to descriptor 5. *)
Lemma response_returns_to_origin_witness :
  exists l1 w1 w2' resp l4 w4,
    tcp_work_iter BAD rr_args two_workers armed_locals sends
      (answer REQ_COMPLETE) armed_world = Done l1 w1 /\
    pushes (since armed_world w1) = [(22, envelope 5 request)] /\
    http_work_iter BAD second_worker (arrive 0 0 0 (envelope 5 request))
      (answer REQ_COMPLETE) boot = Done tt w2' /\
    pushes (since boot w2') = [(23, resp)] /\
    tcp_work_iter BAD rr_args two_workers pending_locals (arrive 0 1 0 resp)
      (answer REQ_COMPLETE) w1 = Done l4 w4 /\
    pushes (since w1 w4) = [(5, resp)] /\
    pops (since w1 w4) = [5].
Proof.
  destruct (response_returns_to_origin BAD rr_args two_workers armed_locals sends
              (answer REQ_COMPLETE) armed_world client_pop 1 second_worker)
    as (l1 & w1 & E1 & P1 & _ & _ & _ & _ & Hhttp);
    [reflexivity | exact sends_is_new_request | cbn; lia
    | vm_compute; reflexivity | reflexivity |].
  destruct (Hhttp (arrive 0 0 0 (envelope 5 request)) (answer REQ_COMPLETE) boot
              eq_refl eq_refl)
    as (w2' & E2 & [(_ & [Hp | (_ & Hp)]) | (resp & P2 & _ & Hback)]);
    [discriminate Hp | discriminate Hp |].
  vm_compute in E2. injection E2 as <-.
  vm_compute in P2. injection P2 as <-.
  destruct (Hback rr_args two_workers pending_locals
              (arrive 0 1 0 (set_seg1_len 5 (ok_response (answer REQ_COMPLETE))))
              (answer REQ_COMPLETE) w1 reply_pop 0%nat)
    as (l4 & w4 & E4 & P4 & Q4).
  { repeat split; try (vm_compute; reflexivity); discriminate. }
  { reflexivity. }
  { reflexivity. }
  eexists l1, w1, _, _, l4, w4.
  split; [exact E1|]. split; [exact P1|].
  split; [vm_compute; reflexivity|].
  split; [vm_compute; reflexivity|]. split; [exact E4|]. split; [exact P4 | exact Q4].
Defined.


(** With two compute workers, the first request goes to the worker of
    index 1. *)
Lemma round_robin_kth_request_witness :
  exists l' w',
    two_workers !! (1 mod 2)%nat = Some second_worker /\
    tcp_work_iter BAD rr_args two_workers armed_locals sends
      (answer REQ_COMPLETE) armed_world = Done l' w' /\
    pushes (since armed_world w') = [(22, envelope 5 request)] /\
    waits_at BAD rr_args two_workers 1 true l' w'.
Proof.
  destruct (round_robin_kth_request BAD rr_args two_workers 0 true armed_locals
              armed_world sends (answer REQ_COMPLETE) client_pop)
    as (wk & l' & w' & Hwk & E & P & W);
    [exact (armed_waits rr_args eq_refl) | reflexivity | reflexivity
    | discriminate | exact sends_is_new_request |].
  vm_compute in Hwk. injection Hwk as <-.
  exists l', w'. split; [reflexivity|]. split; [exact E|]. split; [exact P | exact W].
Defined.

(** * The request-line filter *)

Section FilterFacts.
Import Ascii.

Lemma find_char_here c a r :
  (c ∉ a) -> find_char c (a ++ c :: r) 0 = Some (length a).
Proof.
  induction a as [|x a IH]; intros Hc; cbn.
  - now rewrite Ascii.eqb_refl.
  - apply not_elem_of_cons in Hc as [Hx Ha].
    destruct (Ascii.eqb_spec x c) as [->|_]; [contradiction|].
    now rewrite (IH Ha).
Qed.

Lemma find_char_none c s : c ∉ s -> find_char c s 0 = None.
Proof.
  induction s as [|x s IH]; intros Hc; cbn; [reflexivity|].
  apply not_elem_of_cons in Hc as [Hx Hs].
  destruct (Ascii.eqb_spec x c) as [->|_]; [contradiction|].
  now rewrite (IH Hs).
Qed.

Lemma find_char_split c s n :
  find_char c s 0 = Some n ->
  exists a r, s = a ++ c :: r /\ (c ∉ a) /\ length a = n.
Proof.
  revert n. induction s as [|x s IH]; intros n H; cbn in H; [discriminate|].
  destruct (Ascii.eqb_spec x c) as [->|Hx].
  - injection H as <-. exists [], s. repeat split. apply not_elem_of_nil.
  - destruct (find_char c s 0) as [m|]; [|discriminate].
    injection H as <-. destruct (IH m eq_refl) as (a & r & -> & Ha & <-).
    exists (x :: a), r. repeat split.
    apply not_elem_of_cons. split; [congruence | assumption].
Qed.

Lemma find_char_some_or_none c s :
  (exists a r, s = a ++ c :: r /\ (c ∉ a) /\ find_char c s 0 = Some (length a)) \/
  ((c ∉ s) /\ find_char c s 0 = None).
Proof.
  destruct (find_char c s 0) as [n|] eqn:E.
  - left. destruct (find_char_split c s n E) as (a & r & -> & Ha & <-).
    now exists a, r.
  - right. split; [|reflexivity]. intros Hin.
    apply list_elem_of_split in Hin as (a & r & ->).
    induction a as [|x a IH]; cbn in E.
    + now rewrite Ascii.eqb_refl in E.
    + destruct (Ascii.eqb x c); [discriminate|].
      destruct (find_char c (a ++ c :: r) 0); [discriminate|]. now apply IH.
Qed.

(** Searching from [pos] is searching the rest of the string. *)
Lemma find_char_from c pre s :
  find_char c (pre ++ s) (length pre) =
  (fun n => (length pre + n)%nat) <$> find_char c s 0.
Proof.
  induction pre as [|x pre IH]; cbn.
  - now destruct (find_char c s 0).
  - rewrite IH. now destruct (find_char c s 0).
Qed.

Lemma starts_with_spec pat s :
  starts_with pat s = true <-> exists post, s = pat ++ post.
Proof.
  revert s. induction pat as [|p pat IH]; intros s; cbn.
  - split; [intros _; now exists s | reflexivity].
  - destruct s as [|x s].
    + split; [discriminate | intros [post H]; discriminate].
    + rewrite andb_true_iff, IH. split.
      * intros [Hp [post ->]]. apply Ascii.eqb_eq in Hp as ->. now exists post.
      * intros [post H]. injection H as -> ->.
        split; [apply Ascii.eqb_refl | now exists post].
Qed.

Lemma find_str_occurs pat s : is_Some (find_str pat s) <-> occurs pat s.
Proof.
  induction s as [|x s IH]; cbn.
  - destruct (starts_with pat []) eqn:E.
    + apply starts_with_spec in E as [post E]. split; [|eauto].
      intros _. exists [], post. exact E.
    + split; [intros [? ?]; discriminate|].
      intros (pre & post & H). destruct pre; cbn in H.
      * assert (starts_with pat [] = true) by (apply starts_with_spec; eauto).
        congruence.
      * discriminate.
  - destruct (starts_with pat (x :: s)) eqn:E.
    + apply starts_with_spec in E as [post E]. split; [|eauto].
      intros _. exists [], post. exact E.
    + rewrite fmap_is_Some, IH. split.
      * intros (pre & post & ->). now exists (x :: pre), post.
      * intros (pre & post & H). destruct pre as [|y pre]; cbn in H.
        -- assert (starts_with pat (x :: s) = true)
             by (apply starts_with_spec; eauto).
           congruence.
        -- injection H as -> ->. now exists pre, post.
Qed.

(** The position [find_str] returns splits the string around the first
    occurrence. *)
Lemma find_str_split pat s p :
  find_str pat s = Some p ->
  s = take p s ++ pat ++ drop (p + length pat) s /\
  (pat <> [] -> ~ occurs pat (take (p + (length pat - 1)) s)).
Proof.
  revert p. induction s as [|x s IH]; intros p H; cbn in H.
  - destruct (starts_with pat []) eqn:E; [|discriminate].
    injection H as <-. apply starts_with_spec in E as [post E].
    destruct pat; [|discriminate]. split; [reflexivity|]. congruence.
  - destruct (starts_with pat (x :: s)) eqn:E.
    + injection H as <-. apply starts_with_spec in E as [post E].
      split.
      * cbn [take app Nat.add]. rewrite E at 1. f_equal.
        rewrite E, drop_app_length. reflexivity.
      * intros Hne (pre & post' & Hocc). cbn [Nat.add] in Hocc.
        assert (Hlen : length (take (length pat - 1) (x :: s)) =
                       length (pre ++ pat ++ post')) by now rewrite Hocc.
        rewrite length_take, !length_app in Hlen.
        destruct pat; [congruence|]. cbn [length] in Hlen. lia.
    + destruct (find_str pat s) as [q|] eqn:Eq; [|discriminate].
      injection H as <-. destruct (IH q eq_refl) as [Hs Hfirst].
      split.
      * cbn [take drop Nat.add app]. now rewrite <- Hs.
      * intros Hne (pre & post & Hocc). cbn [Nat.add take] in Hocc.
        destruct pre as [|y pre]; cbn in Hocc.
        -- assert (starts_with pat (x :: s) = true).
           { apply starts_with_spec.
             exists (post ++ drop (q + (length pat - 1)) s).
             rewrite <- (take_drop (q + (length pat - 1)) s) at 1.
             rewrite app_comm_cons, Hocc, <- app_assoc. reflexivity. }
           congruence.
        -- injection Hocc as -> Hocc. apply (Hfirst Hne). now exists pre, post.
Qed.


Lemma find_str_first pat s p :
  find_str pat s = Some p -> pat <> [] -> ~ occurs pat (take p s).
Proof.
  intros H Hne (pre & post & Hocc).
  destruct (find_str_split pat s p H) as [_ Hfirst].
  apply (Hfirst Hne). exists pre, (post ++ take (length pat - 1) (drop p s)).
  rewrite <- take_take_drop, Hocc, <- !app_assoc. reflexivity.
Qed.

Lemma find_crlf line tail :
  ~ occurs CRLF line -> find_str CRLF (line ++ CRLF ++ tail) = Some (length line).
Proof.
  induction line as [|x line IH]; intros Hno; [reflexivity|].
  assert (Hno' : ~ occurs CRLF line).
  { intros (pre & post & ->). apply Hno. now exists (x :: pre), post. }
  cbn [find_str app]. rewrite (IH Hno').
  destruct (starts_with CRLF (x :: line ++ CRLF ++ tail)) eqn:E; [|reflexivity].
  exfalso. apply starts_with_spec in E as [post E]. cbn in E.
  destruct line as [|y line]; cbn in E; [discriminate|].
  injection E as -> -> _. apply Hno. now exists [], line.
Qed.

Lemma first_split_unique (c : ascii) a r a' r' :
  (c ∉ a) -> (c ∉ a') -> a ++ c :: r = a' ++ c :: r' -> a = a' /\ r = r'.
Proof.
  revert a'. induction a as [|x a IH]; intros a' Ha Ha' E.
  - destruct a' as [|y a']; cbn in E.
    + injection E as ->. now split.
    + injection E as <- _. exfalso. apply Ha'. left.
  - apply not_elem_of_cons in Ha as [Hx Ha].
    destruct a' as [|y a']; cbn in E.
    + injection E as -> _. congruence.
    + injection E as <- E. apply not_elem_of_cons in Ha' as [_ Ha'].
      destruct (IH a' Ha Ha' E) as [-> ->]. now split.
Qed.

(** One turn of the loop, when [last] is the length of [pre]. *)
Lemma scan_line_turn f pre s i line last :
  line = pre ++ s -> last = length pre ->
  scan_line (S f) line last i =
  match find_char SP s 0 with
  | None => Some 0
  | Some n =>
      if i =? 3 then
        match find_str (lit "HTTP") (take n s) with
        | Some _ => Some 1
        | None => Some 0
        end
      else scan_line f line (last + n + 1) (i + 1)
  end.
Proof.
  intros -> ->. cbn [scan_line]. rewrite find_char_from.
  destruct (find_char SP s 0) as [n|]; cbn; [|reflexivity].
  unfold substr. rewrite drop_app_length.
  now replace (length pre + n - length pre)%nat with n by lia.
Qed.

(** The loop, given three turns or more turns than the line has
    characters, answers 1 on the lines of [third_token_http] and 0 on the
    others. *)
Lemma scan_line_cases fuel line :
  (length line < fuel \/ 3 <= fuel)%nat ->
  (scan_line fuel line 0 1 = Some 1 /\ third_token_http line) \/
  (scan_line fuel line 0 1 = Some 0 /\ ~ third_token_http line).
Proof.
  intros Hfuel.
  destruct fuel as [|f1]; [lia|].
  rewrite (scan_line_turn f1 [] line 1 line 0 eq_refl eq_refl).
  destruct (find_char_some_or_none SP line) as [(a & r1 & -> & Ha & ->) | [Hno ->]].
  2: { right. split; [reflexivity|].
       intros (a & b & c & rest & -> & _). apply Hno.
       apply elem_of_app. right. left. }
  cbn [Z.eqb Pos.eqb Z.add Pos.add].
  rewrite length_app in Hfuel. cbn [length] in Hfuel.
  destruct f1 as [|f2]; [lia|].
  rewrite (scan_line_turn f2 (a ++ [SP]) r1 2).
  2: { now rewrite <- app_assoc. }
  2: { rewrite length_app. cbn [length]. lia. }
  destruct (find_char_some_or_none SP r1) as [(b & r2 & -> & Hb & ->) | [Hno ->]].
  2: { right. split; [reflexivity|].
       intros (a' & b' & c' & rest & E & Ha' & _).
       destruct (first_split_unique SP a r1 a' _ Ha Ha' E) as [_ ->].
       apply Hno. apply elem_of_app. right. left. }
  cbn [Z.eqb Pos.eqb Z.add Pos.add Pos.succ].
  rewrite length_app in Hfuel. cbn [length] in Hfuel.
  destruct f2 as [|f3]; [lia|].
  rewrite (scan_line_turn f3 (a ++ SP :: b ++ [SP]) r2 3).
  2: { rewrite <- !app_assoc. cbn. now rewrite <- app_assoc. }
  2: { rewrite !length_app. cbn [length]. rewrite !length_app. cbn [length]. lia. }
  destruct (find_char_some_or_none SP r2) as [(c & rest & -> & Hc & ->) | [Hno ->]].
  2: { right. split; [reflexivity|].
       intros (a' & b' & c' & rest & E & Ha' & Hb' & _).
       destruct (first_split_unique SP a _ a' _ Ha Ha' E) as [_ E1].
       destruct (first_split_unique SP b _ b' _ Hb Hb' E1) as [_ ->].
       apply Hno. apply elem_of_app. right. left. }
  cbn [Z.eqb Pos.eqb]. rewrite take_app_length.
  destruct (find_str (lit "HTTP") c) as [n|] eqn:Ef.
  - left. split; [reflexivity|].
    exists a, b, c, rest. repeat split; try assumption.
    apply find_str_occurs. now exists n.
  - right. split; [reflexivity|].
    intros (a' & b' & c' & rest' & E & Ha' & Hb' & Hc' & Hocc).
    destruct (first_split_unique SP a _ a' _ Ha Ha' E) as [_ E1].
    destruct (first_split_unique SP b _ b' _ Hb Hb' E1) as [_ E2].
    destruct (first_split_unique SP c _ c' _ Hc Hc' E2) as [-> _].
    apply find_str_occurs in Hocc. rewrite Ef in Hocc. now destruct Hocc.
Qed.

End FilterFacts.

Lemma recognised_line message line tail :
  message = line ++ CRLF ++ tail -> ~ occurs CRLF line ->
  recognised message -> third_token_http line.
Proof.
  intros -> Hno (line' & tail' & E & Hno' & H3).
  pose proof (find_crlf line tail Hno) as F.
  rewrite E, (find_crlf line' tail' Hno') in F. injection F as F.
  assert (line' = line) as ->; [|assumption].
  rewrite <- (take_app_length line' (CRLF ++ tail')), <- E, F.
  apply take_app_length.
Qed.

Lemma third_token_spaces line :
  third_token_http line -> (3 <= spaces line)%nat.
Proof.
  intros (a & b & c & rest & -> & _). unfold spaces.
  rewrite List.filter_app. cbn [List.filter]. rewrite Ascii.eqb_refl.
  rewrite List.filter_app. cbn [List.filter]. rewrite Ascii.eqb_refl.
  rewrite List.filter_app. cbn [List.filter]. rewrite Ascii.eqb_refl.
  rewrite !length_app. cbn [length]. rewrite !length_app. cbn [length].
  rewrite !length_app. cbn [length]. lia.
Qed.

Lemma match_filter_cases message :
  (match_filter message = Some 1 /\ recognised message) \/
  (match_filter message = Some 0 /\ ~ recognised message).
Proof.
  unfold match_filter. destruct (find_str CRLF message) as [p|] eqn:E.
  - destruct (find_str_split _ _ _ E) as [Hm _].
    assert (Hno : ~ occurs CRLF (take p message))
      by (apply (find_str_first _ _ _ E); discriminate).
    unfold substr. rewrite drop_0.
    destruct (scan_line_cases (S (length (take p message))) (take p message))
      as [[-> H3] | [-> H3]]; [left; lia | |].
    + left. split; [reflexivity|].
      exists (take p message), (drop (p + length CRLF) message).
      repeat split; assumption.
    + right. split; [reflexivity|]. intros R. apply H3.
      exact (recognised_line _ _ _ Hm Hno R).
  - right. split; [reflexivity|]. intros (line & tail & -> & _).
    assert (H : is_Some (find_str CRLF (line ++ CRLF ++ tail)))
      by (apply find_str_occurs; now exists line, tail).
    rewrite E in H. now destruct H.
Qed.

(** X1 (match_filter, lines 64-85): the filter answers 1 exactly for the
    messages whose first line, the text before the first CRLF, is
    [a SP b SP c SP rest] with no space in [a], [b] and [c] and with HTTP
    occurring in [c]; for every other message it answers 0. Its loop
    always ends. *)
Theorem match_filter_recognised message :
  (match_filter message = Some 1 <-> recognised message) /\
  (match_filter message = Some 0 <-> ~ recognised message).
Proof.
  destruct (match_filter_cases message) as [[E R] | [E R]]; rewrite E.
  - repeat split; intros H; try assumption; try discriminate H.
    contradiction.
  - repeat split; intros H; try assumption; try discriminate H.
    contradiction.
Qed.

(** X2 (match_filter, lines 64-85): a message whose first line has fewer
    than three spaces is answered 0, whatever its words are: the third
    word is only looked at when a space follows it, so the usual request
    line of a method, a target and a version, with two spaces, is not
    recognised. *)
Theorem match_filter_needs_three_spaces message line tail :
  message = line ++ CRLF ++ tail -> ~ occurs CRLF line ->
  (spaces line < 3)%nat ->
  match_filter message = Some 0.
Proof.
  intros Hm Hno Hsp.
  destruct (match_filter_cases message) as [[_ R] | [E _]]; [|exact E].
  pose proof (third_token_spaces _ (recognised_line _ _ _ Hm Hno R)). lia.
Qed.

Lemma match_filter_needs_three_spaces_witness :
  let line := lit "GET /index.html HTTP/1.1" in
  let tail := lit "Host: a" ++ CRLF ++ CRLF in
  match_filter (line ++ CRLF ++ tail) = Some 0.
Proof.
  intros line tail.
  apply (match_filter_needs_three_spaces _ line tail eq_refl).
  - intros H. apply find_str_occurs in H. vm_compute in H.
    destruct H as [? H]. discriminate H.
  - vm_compute. lia.
Defined.

(** ** More on the connection worker *)

Section ConnectionWorkerMore.
Context (BAD : string) (args : tcp_worker_args) (hw : list Worker).

(** X3 (tcp_work, lines 294-295 and 455-459): a completion with a non-zero
    status ends the iteration normally exactly when the status is
    ECONNRESET or ECONNABORTED; the worker then closes the descriptor of
    the completed token, whichever it is, removes the token, and submits
    nothing.  On any other non-zero status the assertion fails right after
    the wait, nothing being closed. *)
Theorem error_completion_closes_or_aborts l a x w t :
  vec_at (tokens l) (ar_idx a) = Some t -> ar_status a <> 0 ->
  (ar_status a = ECONNRESET \/ ar_status a = ECONNABORTED ->
   exists l' w',
     tcp_work_iter BAD args hw l a x w = Done l' w' /\
     tokens l' = vec_erase (tokens l) (ar_idx a) /\
     http_q_pending l' = http_q_pending l /\
     closes (since w w') = [tk_qd t] /\
     pushes (since w w') = [] /\ pops (since w w') = [] /\
     accepts (since w w') = [] /\ frees (since w w') = []) /\
  (ar_status a <> ECONNRESET -> ar_status a <> ECONNABORTED ->
   exists w',
     tcp_work_iter BAD args hw l a x w = AssertFail w' /\
     since w w' = [c_wait_any (tokens l)]).
Proof.
  intros Ht Hs. split.
  - intros He.
    destruct (tcp_work_iter_run BAD args hw l a x w t _ _ Ht
                (it_error _ _ _ _ _ _ _ _ He)) as (w' & E & D).
    eexists _, w'. split; [exact E|]. rewrite D. repeat split.
  - intros H1 H2. unfold tcp_work_iter. run. rewrite Ht. cbn.
    apply Z.eqb_neq in Hs, H1, H2. rewrite Hs, H1, H2. cbn.
    eexists. split; [reflexivity|]. delta. reflexivity.
Qed.

End ConnectionWorkerMore.

Lemma error_completion_closes_or_aborts_witness :
  (exists l' w',
     tcp_work_iter BAD joined_args [] armed_locals
       (arrive ECONNRESET 0 0 request) (answer REQ_COMPLETE) armed_world =
     Done l' w' /\
     tokens l' = [next_accept] /\
     closes (since armed_world w') = [5]) /\
  (exists w',
     tcp_work_iter BAD joined_args [] armed_locals
       (arrive 11 0 0 request) (answer REQ_COMPLETE) armed_world =
     AssertFail w' /\
     since armed_world w' = [c_wait_any [client_pop; next_accept]]).
Proof.
  split.
  - destruct (error_completion_closes_or_aborts BAD joined_args [] armed_locals
                (arrive ECONNRESET 0 0 request) (answer REQ_COMPLETE) armed_world
                client_pop eq_refl) as [H _]; [discriminate|].
    destruct (H (or_introl eq_refl)) as (l' & w' & E & Ht & _ & Hc & _).
    exists l', w'. repeat split; assumption.
  - destruct (error_completion_closes_or_aborts BAD joined_args [] armed_locals
                (arrive 11 0 0 request) (answer REQ_COMPLETE) armed_world
                client_pop eq_refl) as [_ H]; [discriminate|].
    apply H; discriminate.
Defined.

Section ReachableStates.
Context (BAD : string) (args : tcp_worker_args) (hw : list Worker).

(** In joined mode no compute queue is ever pending. *)
Lemma joined_pending_empty k healthy l w :
  waits_at BAD args hw k healthy l w -> split args = false ->
  http_q_pending l = [].
Proof.
  induction 1 as [w l w' Hs | k healthy l w a x l' w' _ IH Hi]; intros Hsp.
  - rewrite tcp_setup_done in Hs. now injection Hs as <- <-.
  - specialize (IH Hsp).
    destruct (tcp_work_iter_inv BAD args hw l a x w l' w' Hi) as (t & Ht & R).
    destruct R as [Hs | Hs Hq Ho | it Hr Hf | idx wk Hn Hsp' Hp Hw
                  | Hn _ Hp | Hn _ Hp | Hn _ Hp Hr | Hn _ Hp Hr ];
      cbn [http_q_pending with_tokens]; try exact IH.
    + rewrite IH in Hf. discriminate Hf.
    + congruence.
Qed.

(** The worker does not look at the compute workers when [split] is
    unset. *)
Lemma joined_ignores_workers hw' l a x w :
  split args = false ->
  tcp_work_iter BAD args hw' l a x w = tcp_work_iter BAD args hw l a x w.
Proof. intros Hsp. unfold tcp_work_iter. now rewrite Hsp. Qed.

(** X4 (tcp_work, lines 314-433): in joined mode, at every wait of the
    loop the list of pending compute queues is empty, so a completed pop
    is always taken for a new request; whatever an iteration pushes, it
    pushes to the descriptor whose pop completed; and the vector of compute
    workers is not consulted: the iteration is the same over any other
    vector. *)
Theorem joined_mode_serves_in_place k healthy l w a x l' w' :
  waits_at BAD args hw k healthy l w -> split args = false ->
  tcp_work_iter BAD args hw l a x w = Done l' w' ->
  http_q_pending l = [] /\ http_q_pending l' = [] /\
  (exists t, vec_at (tokens l) (ar_idx a) = Some t /\
             forall q s, (q, s) ∈ pushes (since w w') -> q = tk_qd t) /\
  (forall hw', tcp_work_iter BAD args hw' l a x w = Done l' w').
Proof.
  intros Hw Hsp Hi.
  pose proof (joined_pending_empty _ _ _ _ Hw Hsp) as Hp0.
  split; [exact Hp0|]. split.
  { apply (joined_pending_empty _ _ _ _
             (waits_iter BAD args hw k healthy l w a x l' w' Hw Hi) Hsp). }
  split.
  - destruct (tcp_work_iter_inv BAD args hw l a x w l' w' Hi) as (t & Ht & R).
    exists t. split; [exact Ht|]. intros q s Hin.
    destruct R as [Hs | Hs Hq Ho | it Hr Hf | idx wk Hn Hsp' Hp Hw'
                  | Hn _ Hp | Hn _ Hp | Hn _ Hp Hr | Hn _ Hp Hr ].
    all: try congruence.
    all: try (rewrite Hp0 in Hf; discriminate Hf).
    all: unfold state_frees in Hin;
      destruct (url (a_state x) =? NULL), (body (a_state x) =? NULL);
      cbn in Hin;
      repeat match goal with
             | H : _ ∈ [] |- _ => apply elem_of_nil in H; contradiction
             | H : _ ∈ _ :: _ |- _ => apply elem_of_cons in H as [H|H]
             end;
      congruence.
  - intros hw'. now rewrite (joined_ignores_workers hw').
Qed.

(** Every token waited on is an accept on the listening descriptor or a
    pop. *)
Lemma waits_at_tokens k healthy l w :
  waits_at BAD args hw k healthy l w ->
  Forall (expected_token (lqd l)) (tokens l).
Proof.
  induction 1 as [w l w' Hs | k healthy l w a x l' w' _ IH Hi].
  - rewrite tcp_setup_done in Hs. injection Hs as <- <-.
    repeat constructor.
  - destruct (tcp_work_iter_inv BAD args hw l a x w l' w' Hi) as (t & Ht & R).
    pose proof (Forall_delete _ _ (Z.to_nat (ar_idx a)) IH) as IH'.
    fold (vec_erase (tokens l) (ar_idx a)) in IH'.
    destruct R as [Hs | Hs Hq Ho | it Hr Hf | idx wk Hn Hsp' Hp Hw'
                  | Hn _ Hp | Hn _ Hp | Hn _ Hp Hr | Hn _ Hp Hr ];
      cbn [tokens lqd with_tokens]; try exact IH'.
    all: apply Forall_app; split; [exact IH'|].
    all: repeat match goal with
                | |- Forall _ (_ :: _) => apply List.Forall_cons
                | |- Forall _ [] => apply List.Forall_nil
                end.
    all: try (right; reflexivity).
    left. split; reflexivity.
Qed.

(** X5 (tcp_work, lines 286-309, 431, 451): the tokens a connection worker
    waits on are accepts on its listening descriptor and pops, never a
    push; so when a completion with status 0 arrives on another descriptor
    than the listening one, with at most two segments, no assertion of the
    iteration fails. *)
Theorem tokens_are_accepts_or_pops k healthy l w :
  waits_at BAD args hw k healthy l w ->
  (forall t, t ∈ tokens l ->
     tk_op t <> DMTR_OPC_PUSH /\ (tk_qd t <> lqd l -> tk_op t = DMTR_OPC_POP)) /\
  (forall a x t,
     vec_at (tokens l) (ar_idx a) = Some t -> ar_status a = 0 ->
     tk_qd t <> lqd l -> sga_numsegs (ar_sga a) <= 2 ->
     assert_failed (tcp_work_iter BAD args hw l a x w) = false).
Proof.
  intros Hw. pose proof (waits_at_tokens _ _ _ _ Hw) as Hall.
  rewrite Forall_forall in Hall.
  assert (Hexp : forall t, t ∈ tokens l ->
            tk_op t <> DMTR_OPC_PUSH /\
            (tk_qd t <> lqd l -> tk_op t = DMTR_OPC_POP)).
  { intros t Hin. apply list_elem_of_In in Hin.
    destruct (Hall t Hin) as [[Ho Hq] | Ho]; rewrite Ho.
    - split; [discriminate | congruence].
    - split; [discriminate | reflexivity]. }
  split; [exact Hexp|].
  intros a x t Ht Hs Hq Hn.
  destruct (Hexp t (vec_at_elem _ _ _ Ht)) as [_ Ho]. specialize (Ho Hq).
  apply Z.eqb_neq in Hq. apply Z.leb_le in Hn.
  unfold tcp_work_iter, forward, serve, reply. run.
  rewrite Ht. cbn. rewrite Hs, Hq, Ho, Hn. cbn.
  destruct (find (http_q_pending l) (tk_qd t)); [reflexivity|].
  unfold incr. destruct (num_rcvd l <? INT_MAX); cbn; [|reflexivity].
  destruct (split args).
  - destruct (pick_worker args hw (num_rcvd l + 1) x); cbn; [|reflexivity].
    destruct (vec_at hw z); reflexivity.
  - destruct (a_pstatus x); cbn.
    + destruct (a_type x); cbn; destruct (a_response x =? NULL); cbn;
        rewrite clean_state_done; reflexivity.
    + rewrite clean_state_done; reflexivity.
    + rewrite clean_state_done; reflexivity.
Qed.

End ReachableStates.

Lemma joined_mode_serves_in_place_witness :
  exists l' w',
    tcp_work_iter BAD joined_args [] armed_locals sends (answer REQ_COMPLETE)
      armed_world = Done l' w' /\
    http_q_pending l' = [] /\
    forall q s, (q, s) ∈ pushes (since armed_world w') -> q = 5.
Proof.
  assert (E : tcp_work_iter BAD joined_args two_workers armed_locals sends
                (answer REQ_COMPLETE) armed_world = Done served_locals served_world)
    by (vm_compute; reflexivity).
  destruct (joined_mode_serves_in_place BAD joined_args two_workers 0 true
              armed_locals armed_world sends (answer REQ_COMPLETE)
              served_locals served_world (armed_waits joined_args eq_refl)
              eq_refl E)
    as (_ & Hp & (t & Ht & Hq) & Hany).
  exists served_locals, served_world. split; [apply Hany|].
  split; [exact Hp|]. intros q s Hin.
  injection Ht as <-. exact (Hq q s Hin).
Defined.

Lemma tokens_are_accepts_or_pops_witness :
  (forall t, t ∈ tokens armed_locals ->
     tk_op t <> DMTR_OPC_PUSH /\ (tk_qd t <> 1 -> tk_op t = DMTR_OPC_POP)) /\
  assert_failed (tcp_work_iter BAD rr_args two_workers armed_locals sends
                   (answer REQ_COMPLETE) armed_world) = false.
Proof.
  destruct (tokens_are_accepts_or_pops BAD rr_args two_workers 0 true
              armed_locals armed_world (armed_waits rr_args eq_refl))
    as [H1 H2].
  split; [exact H1|].
  apply (H2 sends (answer REQ_COMPLETE) client_pop eq_refl eq_refl).
  - discriminate.
  - vm_compute. discriminate.
Defined.

(** ** The choice of the compute worker *)

(** Whatever its left operand, the remainder by the size of a non-empty
    vector is the index of one of its elements. *)
Lemma rem_size_in_range x (hw : list Worker) :
  hw <> [] -> Z.of_nat (length hw) <= INT_MAX ->
  exists idx wk, rem_size x hw = Some idx /\ vec_at hw idx = Some wk.
Proof.
  intros Hne Hmax. unfold rem_size, INT_MAX in *.
  assert (Hlen : (length hw <> 0)%nat) by (destruct hw; [congruence | discriminate]).
  destruct (Z.eqb_spec (Z.of_nat (length hw)) 0) as [E|_]; [lia|].
  pose proof (Z.mod_pos_bound (to_u64 x) (Z.of_nat (length hw))) as Hb.
  rewrite to_int_small by lia.
  destruct (lookup_lt_is_Some_2 hw (Z.to_nat (to_u64 x mod Z.of_nat (length hw))))
    as [wk Hwk]; [lia|].
  eexists _, wk. split; [reflexivity|].
  unfold vec_at. destruct (Z.ltb_spec (to_u64 x mod Z.of_nat (length hw)) 0); [lia|].
  exact Hwk.
Qed.

Section Balancing.
Context (BAD : string) (args : tcp_worker_args) (hw : list Worker).

(** X6 (tcp_work, lines 330-355; filter_http_req, lines 263-265): in split
    mode under RR or HTTP_REQ_TYPE, whatever the counter and the answer of
    the filter function are, a new request is pushed to the input queue of
    one of the registered compute workers, whose output queue is then
    popped, as long as there is at least one of them (and no more than
    INT_MAX).  With no compute worker registered the remainder by the
    size of the vector is a division by zero. *)
Theorem balancing_stays_in_range l a x w t :
  split args = true -> filter args <> ONE_TO_ONE -> new_request l a t ->
  (hw <> [] -> Z.of_nat (length hw) <= INT_MAX ->
   exists wk l' w',
     wk ∈ hw /\
     tcp_work_iter BAD args hw l a x w = Done l' w' /\
     pushes (since w w') = [(in_qfd wk, envelope (tk_qd t) (ar_sga a))] /\
     pops (since w w') = [out_qfd wk] /\
     http_q_pending l' = http_q_pending l ++ [out_qfd wk]) /\
  (hw = [] -> is_undefined (tcp_work_iter BAD args hw l a x w) = true).
Proof.
  intros Hsp Hf Hn. split.
  - intros Hne Hmax.
    assert (Hp : exists idx wk,
               pick_worker args hw (num_rcvd l + 1) x = Some idx /\
               vec_at hw idx = Some wk).
    { unfold pick_worker. destruct (filter args); try congruence;
        now apply rem_size_in_range. }
    destruct Hp as (idx & wk & Hp & Hv).
    destruct (tcp_work_iter_run BAD args hw l a x w t _ _
                (new_request_token _ _ _ Hn)
                (it_forward _ _ _ _ _ _ _ _ _ _ Hn Hsp Hp Hv))
      as (w' & E & D).
    eexists wk, _, w'. split; [now apply vec_at_elem with idx|].
    split; [exact E|]. rewrite D. repeat split.
  - intros ->.
    destruct Hn as ((Hs & Ht & Ho & Hq & Hseg) & Hfind & Hi).
    apply Z.eqb_neq in Hq. apply Z.leb_le in Hseg. apply Z.ltb_lt in Hi.
    unfold tcp_work_iter, forward. run.
    rewrite Ht. cbn. rewrite Hs, Hq, Ho, Hseg, Hfind. cbn.
    unfold incr. rewrite Hi. cbn. rewrite Hsp. unfold pick_worker.
    destruct (filter args); try congruence; reflexivity.
Qed.

End Balancing.

Lemma balancing_stays_in_range_witness :
  (exists wk l' w',
     wk ∈ two_workers /\
     tcp_work_iter BAD rr_args two_workers armed_locals sends
       (answer REQ_COMPLETE) armed_world = Done l' w' /\
     pushes (since armed_world w') = [(in_qfd wk, envelope 5 request)]) /\
  is_undefined (tcp_work_iter BAD rr_args [] armed_locals sends
                  (answer REQ_COMPLETE) armed_world) = true.
Proof.
  split.
  - destruct (balancing_stays_in_range BAD rr_args two_workers armed_locals sends
                (answer REQ_COMPLETE) armed_world client_pop eq_refl)
      as [H _]; [discriminate | exact sends_is_new_request |].
    destruct H as (wk & l' & w' & Hin & E & Hp & _);
      [discriminate | vm_compute; discriminate |].
    exists wk, l', w'. repeat split; assumption.
  - apply (balancing_stays_in_range BAD rr_args [] armed_locals sends
             (answer REQ_COMPLETE) armed_world client_pop eq_refl);
      [discriminate | exact sends_is_new_request | reflexivity].
Defined.

(** ** More on the supervisor *)

Section SupervisorMore.
Context (ip : option Z) (port : Z) (qs : Z -> Z * Z).

(** The second loop of [work_setup] returns, and only adds calls. *)
Lemma http_loop_extends n_tcp c : forall i g w,
  exists r w' d,
    for_loop_return (create_http_worker qs n_tcp) i c g w = Done r w' /\
    trace w' = trace w ++ d.
Proof.
  induction c as [|c IH]; intros i g w.
  - eexists _, _, []. split; [reflexivity|]. now rewrite app_nil_r.
  - cbn [for_loop_return]. unfold bind.
    destruct (decide (qs i = (0, 0))) as [E|E].
    + rewrite create_http_worker_done by assumption. cbv beta iota.
      match goal with
      | |- context [for_loop_return _ _ _ ?g1 ?w1] =>
          destruct (IH (i + 1) g1 w1) as (r & w' & d & E1 & Ht)
      end.
      eexists r, w', _. split; [exact E1|]. rewrite Ht. cbn [trace].
      rewrite <- app_assoc. reflexivity.
    + rewrite create_http_worker_failed by assumption.
      eexists _, _, _. split; [reflexivity|]. reflexivity.
Qed.

(** [work_setup] on counts that pass its check: it returns, after it made
    the calls of the first loop. *)
Lemma work_setup_connection_workers n_tcp n_http (split : bool) g w :
  (n_tcp <= 0 \/ n_http <= n_tcp) ->
  exists status g' w' d,
    work_setup ip port qs n_tcp n_http split g w = Done (status, g') w' /\
    (split = false \/ queues_succeed qs n_http -> status = 1) /\
    since w w' =
      flat_map (tcp_calls ip port split w) (seq 0 (Z.to_nat n_tcp)) ++ d.
Proof.
  intros Hok.
  destruct (work_setup_returns ip port qs n_tcp n_http split g w Hok)
    as (status & g' & w' & E & Hs).
  exists status, g', w'.
  unfold work_setup, bind in E.
  destruct (tcp_workers_loop ip port n_tcp n_http split g w)
    as [(? & ? & _) | (_ & g1 & w1 & E1 & _ & _ & _ & Htr)]; [lia|].
  rewrite E1 in E. destruct split; cbn [negb] in E.
  - destruct (http_loop_extends n_tcp (Z.to_nat n_http) 0 g1 w1)
      as (r & w2 & d & E2 & Ht2).
    rewrite E2 in E. exists d.
    split; [|split; [exact Hs|]].
    + unfold work_setup, bind. rewrite E1. cbn [negb]. rewrite E2. exact E.
    + apply since_app.
      destruct r as [[st|] g2]; injection E as _ _ <-;
        now rewrite Ht2, Htr, <- app_assoc.
  - exists []. split; [|split; [exact Hs|]].
    + unfold work_setup, bind. rewrite E1. exact E.
    + apply since_app. injection E as _ _ <-. now rewrite app_nil_r.
Qed.

(** [work_setup] when no queue creation fails, in full: the vectors it
    fills and the calls it makes. *)
Lemma work_setup_run n_tcp n_http (split : bool) g w :
  (n_tcp <= 0 \/ n_http <= n_tcp) ->
  split = false \/ queues_succeed qs n_http ->
  let t1 := next_tid w + Z.of_nat (Z.to_nat n_tcp) in
  let m := if split then Z.to_nat n_http else 0%nat in
  exists g' w',
    work_setup ip port qs n_tcp n_http split g w = Done (1, g') w' /\
    http_workers g' =
      http_workers g ++ map (http_handle (next_qd w) t1) (seq 0 m) /\
    worker_threads g' =
      worker_threads g ++
      map (fun k => next_tid w + Z.of_nat k) (seq 0 (Z.to_nat n_tcp)) ++
      map (fun k => t1 + Z.of_nat k) (seq 0 m) /\
    trace w' =
      trace w ++
      flat_map (tcp_calls ip port split w) (seq 0 (Z.to_nat n_tcp)) ++
      flat_map (http_calls n_tcp (next_qd w) t1) (seq 0 m).
Proof.
  intros Hok Hq t1 m. unfold work_setup, bind, for_upto.
  assert (E1 : for_loop (create_tcp_worker ip port n_tcp n_http split) 0
                 (Z.to_nat n_tcp) g w =
               Done {| http_workers := http_workers g;
                       worker_threads := worker_threads g ++
                         map (fun k => next_tid w + Z.of_nat k)
                             (seq 0 (Z.to_nat n_tcp)) |}
                    {| next_token := next_token w; next_qd := next_qd w;
                       next_tid := t1;
                       trace := trace w ++
                         flat_map (tcp_calls ip port split w)
                                  (seq 0 (Z.to_nat n_tcp)) |}).
  { subst t1. destruct (Z.to_nat n_tcp) as [|c] eqn:Hc.
    - cbn. unfold ret. rewrite !app_nil_r, Z.add_0_r.
      destruct g, w; reflexivity.
    - pose proof (tcp_loop_done ip port n_tcp n_http split w (S c) 0%nat g w) as E.
      change (Z.of_nat 0) with 0 in E. rewrite E by lia. reflexivity. }
  rewrite E1. subst m. destruct split; cbn [negb].
  - destruct Hq as [Hq|Hq]; [discriminate|].
    match goal with
    | |- context [for_loop_return _ 0 _ ?g1 ?w1] =>
        pose proof (http_loop_done qs n_tcp (next_qd w1) (next_tid w1)
                      (Z.to_nat n_http) 0%nat g1 w1) as E2
    end.
    change (Z.of_nat 0) with 0 in E2. rewrite E2; [| |cbn; lia|cbn; lia].
    2: { intros k Hk. apply Hq. lia. }
    unfold ret. eexists _, _. split; [reflexivity|]. cbn.
    split; [reflexivity|]. split; [now rewrite <- app_assoc|].
    now rewrite <- app_assoc.
  - unfold ret. eexists _, _. split; [reflexivity|]. cbn.
    rewrite !app_nil_r. repeat split.
Qed.

Lemma tcp_calls_elem split w (n i : nat) :
  (i < n)%nat ->
  c_pthread_create (next_tid w + Z.of_nat i)
    (tcp_thread (tcp_args_of ip port split (Z.of_nat i)))
  ∈ flat_map (tcp_calls ip port split w) (seq 0 n).
Proof.
  intros Hi. apply list_elem_of_In, in_flat_map. exists i. split.
  - apply in_seq. lia.
  - left. reflexivity.
Qed.

Lemma to_u8_nat (i : nat) : to_u8 (Z.of_nat i) = Z.of_nat (i mod 256).
Proof.
  unfold to_u8, to_unsigned. rewrite Nat2Z.inj_mod. reflexivity.
Qed.

(** X7 (work_setup, lines 484-545; tcp_work, lines 337-353): after
    [work_setup] in split mode on counts that pass its check, no queue
    creation failing, the connection worker created at rank [i] is given
    ONE_TO_ONE and the rank reduced modulo 256 ([whoami] is a [uint8_t]):
    it forwards every new request to the compute worker created at rank
    [i mod 256], with the queues that worker was created with, and
    indexes past the end of the vector when there are no more than
    [i mod 256] compute workers. *)
Theorem one_to_one_pairs_by_rank n_tcp n_http w (i : nat) n x :
  0 <= n_http <= n_tcp -> queues_succeed qs n_http ->
  (i < Z.to_nat n_tcp)%nat ->
  let args_i := tcp_args_of ip port true (Z.of_nat i) in
  let r := (i mod 256)%nat in
  exists g' w',
    work_setup ip port qs n_tcp n_http true no_workers w = Done (1, g') w' /\
    c_pthread_create (next_tid w + Z.of_nat i) (tcp_thread args_i)
      ∈ since w w' /\
    pick_worker args_i (http_workers g') n x = Some (Z.of_nat r) /\
    vec_at (http_workers g') (Z.of_nat r) =
      if (r <? Z.to_nat n_http)%nat
      then Some (http_handle (next_qd w) (next_tid w + n_tcp) r)
      else None.
Proof.
  intros Hn Hq Hi args_i r.
  destruct (work_setup_run n_tcp n_http true no_workers w)
    as (g' & w' & E & Hh & _ & Hs); [lia | now right |].
  apply since_app in Hs.
  exists g', w'. split; [exact E|]. split.
  { rewrite Hs. apply elem_of_app. left. now apply tcp_calls_elem. }
  split.
  { unfold pick_worker. cbn. now rewrite to_u8_nat. }
  rewrite Hh. cbn [http_workers no_workers app].
  rewrite vec_at_nat, Z2Nat.id by lia.
  change (map ?f ?l) with (f <$> l). rewrite list_lookup_fmap.
  destruct (Nat.ltb_spec r (Z.to_nat n_http)).
  - now rewrite lookup_seq_lt.
  - now rewrite lookup_seq_ge.
Qed.

Lemma pins_tcp_calls split w (ks : list nat) :
  pins (flat_map (tcp_calls ip port split w) ks) =
  map (fun k => (next_tid w + Z.of_nat k, cpu_set (to_u16 (Z.of_nat k + 1)))) ks.
Proof.
  induction ks as [|k ks IH]; [reflexivity|]. cbn. now rewrite <- IH.
Qed.

Lemma pins_http_calls n_tcp q0 t0 (ks : list nat) :
  pins (flat_map (http_calls n_tcp q0 t0) ks) =
  map (fun k => (t0 + Z.of_nat k, cpu_set (to_u16 (n_tcp + Z.of_nat k + 1)))) ks.
Proof.
  induction ks as [|k ks IH]; [reflexivity|]. cbn. now rewrite <- IH.
Qed.

(** X8 (work_setup, lines 520-524 and 540-544; pin_thread, lines
    465-474): on counts that pass the check, no queue creation failing,
    [pin_thread] is called once for every thread, right after its creation,
    and the CPU set it passes to [pthread_setaffinity_np] for the thread
    created at rank [k], connection workers first, holds CPU [k + 1] alone
    when [k + 1] is below CPU_SETSIZE.  So with fewer than 1023 threads
    the sets asked for are {1}, {2}, ... in creation order, all distinct
    and none of them holding CPU 0 of the main thread; for a rank from
    1023 to 65534 the set is empty, which leaves the thread unpinned. *)
Theorem workers_pinned_by_creation_rank n_tcp n_http (split : bool) g w :
  0 <= n_http <= n_tcp ->
  split = false \/ queues_succeed qs n_http ->
  let total := (Z.to_nat n_tcp + if split then Z.to_nat n_http else 0)%nat in
  exists g' w',
    work_setup ip port qs n_tcp n_http split g w = Done (1, g') w' /\
    pins (since w w') =
      map (fun k => (next_tid w + Z.of_nat k,
                     cpu_set (to_u16 (Z.of_nat k + 1))))
          (seq 0 total) /\
    (Z.of_nat total < CPU_SETSIZE ->
     map snd (pins (since w w')) =
       map (fun k => Some (Z.of_nat k + 1)) (seq 0 total)) /\
    (forall k : nat,
       (k < total)%nat -> CPU_SETSIZE <= Z.of_nat k + 1 < 65536 ->
       pins (since w w') !! k = Some (next_tid w + Z.of_nat k, None)).
Proof.
  intros Hn Hq total.
  destruct (work_setup_run n_tcp n_http split g w)
    as (g' & w' & E & _ & _ & Hs); [lia | exact Hq |].
  apply since_app in Hs.
  exists g', w'. split; [exact E|].
  assert (Hp : pins (since w w') =
               map (fun k => (next_tid w + Z.of_nat k,
                              cpu_set (to_u16 (Z.of_nat k + 1))))
                   (seq 0 total)).
  { rewrite Hs. unfold pins. rewrite omap_app.
    change (omap _ ?tr) with (pins tr).
    rewrite pins_tcp_calls, pins_http_calls. subst total.
    set (n := Z.to_nat n_tcp).
    set (m := if split then Z.to_nat n_http else 0%nat).
    rewrite seq_app, map_app. f_equal. cbn [Nat.add].
    replace (seq n m) with (map (Nat.add n) (seq 0 m))
      by (change (map ?f ?l) with (f <$> l); rewrite fmap_add_seq;
          f_equal; lia).
    rewrite map_map.
    apply map_ext. intros k. subst n. rewrite Nat2Z.inj_add, Z2Nat.id by lia.
    apply f_equal2; [lia | do 2 f_equal; lia]. }
  split; [exact Hp|]. split.
  - intros Hlt. rewrite Hp, map_map. cbn [snd].
    apply map_ext_in. intros k Hk. apply in_seq in Hk.
    unfold CPU_SETSIZE in Hlt. unfold cpu_set, CPU_SETSIZE, to_u16, to_unsigned.
    rewrite Z.mod_small by lia.
    destruct (Z.ltb_spec (Z.of_nat k + 1) 1024); [reflexivity | lia].
  - intros k Hk Hr. rewrite Hp.
    change (map ?f ?l) with (f <$> l). rewrite list_lookup_fmap.
    rewrite lookup_seq_lt by assumption. cbn.
    unfold CPU_SETSIZE in Hr. unfold cpu_set, CPU_SETSIZE, to_u16, to_unsigned.
    rewrite Z.mod_small by lia.
    destruct (Z.ltb_spec (Z.of_nat k + 1) 1024); [lia | reflexivity].
Qed.

Lemma creates_tcp_calls split w (ks : list nat) :
  creates (flat_map (tcp_calls ip port split w) ks) =
  map (fun k => next_tid w + Z.of_nat k) ks.
Proof.
  induction ks as [|k ks IH]; [reflexivity|]. cbn. now rewrite <- IH.
Qed.

Lemma joins_tcp_calls split w (ks : list nat) :
  joins (flat_map (tcp_calls ip port split w) ks) = [].
Proof. induction ks as [|k ks IH]; [reflexivity | exact IH]. Qed.

(** X9 (main, lines 565-594; work_setup, lines 484-529): [main] returns
    the status of a failed [dmtr_init] before it made any other call;
    else it leaves through [exit(1)] before any thread exists, when there
    is a connection worker and fewer connection workers than compute
    workers; else it returns 0 without having created a thread, when no
    connection worker is asked for; else it blocks the signals, creates
    the connection workers and no other thread, restores the signal mask,
    installs the two handlers, calls [pthread_join] on the first thread it
    created and stays there: it never returns. *)
Theorem main_stays_in_first_join init n_http n_tcp w :
  (init <> 0 /\
   exists w', main ip port init qs n_http n_tcp w = Done (init, no_workers) w' /\
              since w w' = [c_sigmask true; c_init]) \/
  (init = 0 /\ 0 < n_tcp < n_http /\
   exists w', main ip port init qs n_http n_tcp w = Exit 1 w' /\
              creates (since w w') = []) \/
  (init = 0 /\ n_tcp <= 0 /\
   exists w', main ip port init qs n_http n_tcp w = Done (0, no_workers) w' /\
              creates (since w w') = [] /\ joins (since w w') = []) \/
  (init = 0 /\ 0 < n_tcp /\ n_http <= n_tcp /\
   exists w' pre,
     main ip port init qs n_http n_tcp w = Blocked w' /\
     since w w' =
       c_sigmask true :: pre ++
       [c_sigmask false; c_signal; c_signal; c_join (next_tid w)] /\
     creates pre =
       map (fun k => next_tid w + Z.of_nat k) (seq 0 (Z.to_nat n_tcp)) /\
     compute_threads pre = [] /\ joins pre = []).
Proof.
  destruct (main_outcome ip port qs init n_http n_tcp w)
    as [(Hi & E) | [(Hi & Hn & E) | [(Hi & Hn & w' & E & Hs)
                                    | (Hi & H0 & Hn & w' & E & Hs)]]].
  - left. split; [exact Hi|]. eexists. split; [exact E|]. delta. reflexivity.
  - right. left. split; [exact Hi|]. split; [exact Hn|].
    eexists. split; [exact E|]. delta. reflexivity.
  - right. right. left. split; [exact Hi|]. split; [exact Hn|].
    exists w'. split; [exact E|]. rewrite Hs. split; reflexivity.
  - right. right. right. split; [exact Hi|]. split; [exact H0|].
    split; [exact Hn|].
    exists w', ([c_init; c_pin main_thread (Some 0)] ++
                flat_map (tcp_calls ip port false w) (seq 0 (Z.to_nat n_tcp))).
    split; [exact E|]. split.
    { rewrite Hs. reflexivity. }
    cbn [app].
    change (creates (c_init :: c_pin ?a ?b :: ?tr)) with (creates tr).
    change (joins (c_init :: c_pin ?a ?b :: ?tr)) with (joins tr).
    change (compute_threads (c_init :: c_pin ?a ?b :: ?tr))
      with (compute_threads tr).
    rewrite creates_tcp_calls, joins_tcp_calls, compute_threads_tcp_calls.
    repeat split.
Qed.

End SupervisorMore.

Lemma one_to_one_pairs_by_rank_witness :
  exists g' w',
    work_setup None 80 queues_ok 2 2 true no_workers boot = Done (1, g') w' /\
    pick_worker (tcp_args_of None 80 true 1) (http_workers g') 7
      (answer REQ_COMPLETE) = Some 1 /\
    vec_at (http_workers g') 1 = Some {| in_qfd := 3; out_qfd := 4; me := 4 |}.
Proof.
  destruct (one_to_one_pairs_by_rank None 80 queues_ok 2 2 boot 1 7
              (answer REQ_COMPLETE))
    as (g' & w' & E & _ & Hp & Hv);
    [lia | intros i _; reflexivity | cbn; lia |].
  exists g', w'. split; [exact E|]. split; [exact Hp | exact Hv].
Defined.

Lemma workers_pinned_by_creation_rank_witness :
  exists g' w',
    work_setup None 80 queues_ok 2 1 true no_workers boot = Done (1, g') w' /\
    pins (since boot w') = [(1, Some 1); (2, Some 2); (3, Some 3)].
Proof.
  destruct (workers_pinned_by_creation_rank None 80 queues_ok 2 1 true
              no_workers boot)
    as (g' & w' & E & Hp & _); [lia | right; intros i _; reflexivity |].
  exists g', w'. split; [exact E | exact Hp].
Defined.

(** ** More on the compute worker *)

Section ComputeWorkerMore.
Context (BAD : string).



End ComputeWorkerMore.

Section ErrorPaths.
Context (BAD : string).

(** X11 (http_work, lines 204-219 and 245-255; tcp_work, lines 434-452):
    in split mode a response, be it the one the builder returned or the
    fixed one for a malformed request, is pushed by the compute worker
    after it freed the request buffer: its calls are, in this order, the
    free of the request buffer, the push to its output queue, the wait for
    that push and the frees of the parser state, nothing being pushed or
    freed before.  The buffer of the response is freed by the connection
    worker that pops the reply, after the push to the client completed;
    that worker then submits the next pop on the client and drops the
    compute queue from its pending list. *)
Theorem split_response_freed_after_push me a x w :
  ar_status a = 0 -> sga_numsegs (ar_sga a) = 2 ->
  a_pstatus x = REQ_ERROR \/
  (a_pstatus x = REQ_COMPLETE /\ a_response x <> NULL) ->
  exists w' resp,
    http_work_iter BAD me a x w = Done tt w' /\
    pushes (since w w') = [(out_qfd me, resp)] /\
    frees (since w w') = sga_buf (ar_sga a) :: state_frees (a_state x) /\
    (exists pre mid tp,
       since w w' =
         pre ++ [c_free (sga_buf (ar_sga a))] ++ mid ++
         [c_push tp resp; c_wait tp] ++ map c_free (state_frees (a_state x)) /\
       pushes pre = [] /\ frees pre = [] /\
       pushes mid = [] /\ frees mid = [] /\ tk_qd tp = out_qfd me) /\
    sgaseg_buf (sga_segs0 resp) = response_buffer x /\
    client_of resp = client_of (ar_sga a) /\
    forall args hw l a' x' w0 t it,
      ready_pop l a' t -> find (http_q_pending l) (tk_qd t) = Some it ->
      ar_sga a' = resp ->
      let client := client_of (ar_sga a) in
      exists l' w1,
        tcp_work_iter BAD args hw l a' x' w0 = Done l' w1 /\
        since w0 w1 =
          [c_wait_any (tokens l);
           c_push (tok0 w0 DMTR_OPC_PUSH client) resp;
           c_wait (tok0 w0 DMTR_OPC_PUSH client);
           c_free (response_buffer x);
           c_pop (tok1 w0 DMTR_OPC_POP client)] /\
        http_q_pending l' = delete it (http_q_pending l).
Proof.
  intros Hs Hn Hp.
  destruct (http_work_iter_run BAD me a x w Hs Hn) as (w' & E & D).
  assert (Hback : forall resp,
            sgaseg_buf (sga_segs0 resp) = response_buffer x ->
            client_of resp = client_of (ar_sga a) ->
            forall args hw l a' x' w0 t it,
              ready_pop l a' t -> find (http_q_pending l) (tk_qd t) = Some it ->
              ar_sga a' = resp ->
              let client := client_of (ar_sga a) in
              exists l' w1,
                tcp_work_iter BAD args hw l a' x' w0 = Done l' w1 /\
                since w0 w1 =
                  [c_wait_any (tokens l);
                   c_push (tok0 w0 DMTR_OPC_PUSH client) resp;
                   c_wait (tok0 w0 DMTR_OPC_PUSH client);
                   c_free (response_buffer x);
                   c_pop (tok1 w0 DMTR_OPC_POP client)] /\
                http_q_pending l' = delete it (http_q_pending l)).
  { intros resp Hbuf Hcl args hw l a' x' w0 t it Hr Hf Ha client.
    destruct (tcp_work_iter_run BAD args hw l a' x' w0 t _ _
                (ready_pop_token _ _ _ Hr) (it_reply _ _ _ _ _ _ _ _ it Hr Hf))
      as (w1 & E1 & D1).
    eexists _, w1. split; [exact E1|]. rewrite D1, Ha, Hbuf, Hcl.
    split; reflexivity. }
  exists w'. unfold http_answer in D. unfold response_buffer in *.
  destruct Hp as [Hp | [Hp Hr]]; rewrite Hp in *.
  - eexists. split; [exact E|]. rewrite D. cbn.
    rewrite pushes_frees. split; [reflexivity|].
    split.
    { unfold state_frees.
      destruct (url (a_state x) =? NULL), (body (a_state x) =? NULL);
        reflexivity. }
    split.
    { eexists [_; _], [_], _. repeat split. }
    split; [reflexivity|]. split; [reflexivity|].
    apply Hback; reflexivity.
  - apply Z.eqb_neq in Hr. rewrite Hr in D.
    eexists. split; [exact E|]. rewrite D. cbn.
    rewrite pushes_frees. split; [reflexivity|].
    split.
    { unfold state_frees.
      destruct (url (a_state x) =? NULL), (body (a_state x) =? NULL);
        reflexivity. }
    split.
    { eexists [_; _; _], [], _. repeat split. }
    split; [reflexivity|]. split; [reflexivity|].
    apply Hback; reflexivity.
Qed.

(** X13 (tcp_work, lines 409-413; http_work, lines 239-243): when the
    request parses as complete and the builder leaves the response NULL,
    the worker only cleans the parser state: it pushes nothing, frees
    nothing but the url and the body, and submits no pop; in joined mode
    the token of the client is gone from the set. *)
Theorem null_response_drops_request args hw l a x w t me a0 w0 :
  a_pstatus x = REQ_COMPLETE -> a_response x = NULL ->
  (split args = false -> new_request l a t ->
   exists l' w',
     tcp_work_iter BAD args hw l a x w = Done l' w' /\
     pushes (since w w') = [] /\ pops (since w w') = [] /\
     frees (since w w') = state_frees (a_state x) /\
     tokens l' = vec_erase (tokens l) (ar_idx a)) /\
  (ar_status a0 = 0 -> sga_numsegs (ar_sga a0) = 2 ->
   exists w',
     http_work_iter BAD me a0 x w0 = Done tt w' /\
     pushes (since w0 w') = [] /\
     pops (since w0 w') = [in_qfd me] /\
     frees (since w0 w') = state_frees (a_state x)).
Proof.
  intros Hp Hr. split.
  - intros Hsp Hn.
    destruct (tcp_work_iter_run BAD args hw l a x w t _ _
                (new_request_token _ _ _ Hn)
                (it_no_response _ _ _ _ _ _ _ _ Hn Hsp Hp Hr))
      as (w' & E & D).
    eexists _, w'. split; [exact E|]. rewrite D. cbn [tokens].
    unfold state_frees.
    destruct (url (a_state x) =? NULL), (body (a_state x) =? NULL); repeat split.
  - intros Hs Hn.
    destruct (http_work_iter_run BAD me a0 x w0 Hs Hn) as (w' & E & D).
    exists w'. split; [exact E|]. rewrite D. unfold http_answer.
    rewrite Hp, Hr. cbn. unfold state_frees.
    destruct (url (a_state x) =? NULL), (body (a_state x) =? NULL); repeat split.
Qed.

End ErrorPaths.

Lemma split_response_freed_after_push_witness :
  exists w' resp,
    http_work_iter BAD second_worker (arrive 0 0 0 (envelope 5 request))
      (answer REQ_ERROR) boot = Done tt w' /\
    pushes (since boot w') = [(23, resp)] /\
    frees (since boot w') = [500; 600] /\
    sgaseg_buf (sga_segs0 resp) = 800 /\
    client_of resp = 5.
Proof.
  destruct (split_response_freed_after_push BAD second_worker
              (arrive 0 0 0 (envelope 5 request)) (answer REQ_ERROR) boot
              eq_refl eq_refl (or_introl eq_refl))
    as (w' & resp & E & Hp & Hf & _ & Hb & Hc & _).
  exists w', resp. repeat split; assumption.
Defined.

Lemma null_response_drops_request_witness :
  let x := {| a_pstatus := REQ_COMPLETE; a_state := {| url := 600; body := NULL |};
              a_type := FILE_REQ; a_response := NULL; a_response_size := 0;
              a_malloc := 800; a_resp_sga := junk; a_filter := 1 |} in
  exists l' w',
    tcp_work_iter BAD joined_args [] armed_locals sends x armed_world =
    Done l' w' /\
    pushes (since armed_world w') = [] /\
    frees (since armed_world w') = [600] /\
    tokens l' = [next_accept].
Proof.
  intros x.
  destruct (null_response_drops_request BAD joined_args [] armed_locals sends x
              armed_world client_pop second_worker sends boot eq_refl eq_refl)
    as [H _].
  destruct (H eq_refl sends_is_new_request) as (l' & w' & E & Hp & _ & Hf & Ht).
  exists l', w'. repeat split; assumption.
Defined.

(** ** The addresses of the connection workers *)

Section Addresses.
Context (port : Z) (qs : Z -> Z * Z).

(** X12 (work_setup, lines 500-517): given a base address, the connection
    worker of rank [i] is created with the base address plus [2 * i],
    modulo 2^32, and the common port, so two of the at most 65535 workers
    never share an address; with no base address every worker is created
    with INADDR_ANY and the common port.  That is so whether or not a
    queue can be created afterwards; [work_setup] returns 1 when none
    fails. *)
Theorem connection_workers_listen_apart (ip : option Z) n_tcp n_http
    (split : bool) g w (i j : nat) :
  n_http <= n_tcp <= 65535 -> (i < j < Z.to_nat n_tcp)%nat ->
  let at_rank k := tcp_args_of ip port split (Z.of_nat k) in
  exists status g' w',
    work_setup ip port qs n_tcp n_http split g w = Done (status, g') w' /\
    (split = false \/ queues_succeed qs n_http -> status = 1) /\
    c_pthread_create (next_tid w + Z.of_nat i) (tcp_thread (at_rank i))
      ∈ since w w' /\
    c_pthread_create (next_tid w + Z.of_nat j) (tcp_thread (at_rank j))
      ∈ since w w' /\
    sin_port (saddr (at_rank i)) = port /\
    sin_port (saddr (at_rank j)) = port /\
    match ip with
    | Some base =>
        sin_addr (saddr (at_rank i)) = to_u32 (base + 2 * Z.of_nat i) /\
        sin_addr (saddr (at_rank i)) <> sin_addr (saddr (at_rank j))
    | None =>
        sin_addr (saddr (at_rank i)) = INADDR_ANY /\
        sin_addr (saddr (at_rank j)) = INADDR_ANY
    end.
Proof.
  intros Hn Hij at_rank.
  destruct (work_setup_connection_workers ip port qs n_tcp n_http split g w)
    as (status & g' & w' & d & E & Hst & Hs); [lia|].
  exists status, g', w'. split; [exact E|]. split; [exact Hst|].
  split. { rewrite Hs. apply elem_of_app. left. apply tcp_calls_elem. lia. }
  split. { rewrite Hs. apply elem_of_app. left. apply tcp_calls_elem. lia. }
  split; [reflexivity|]. split; [reflexivity|].
  destruct ip as [base|]; cbn; [|split; reflexivity].
  unfold to_u32, to_unsigned.
  assert (Hk : forall k : nat, (k < Z.to_nat n_tcp)%nat ->
            (base + (Z.of_nat k * 2) mod 2 ^ 32) mod 2 ^ 32 =
            (base + 2 * Z.of_nat k) mod 2 ^ 32).
  { intros k Hk. rewrite Z.add_mod_idemp_r by lia. f_equal. lia. }
  rewrite !Hk by lia. split; [reflexivity|].
  intros Heq.
  assert (Hd : (2 * Z.of_nat j - 2 * Z.of_nat i) mod 2 ^ 32 = 0).
  { replace (2 * Z.of_nat j - 2 * Z.of_nat i)
      with ((base + 2 * Z.of_nat j) - (base + 2 * Z.of_nat i)) by lia.
    rewrite Zminus_mod, Heq, Z.sub_diag. reflexivity. }
  rewrite Z.mod_small in Hd by lia. lia.
Qed.

End Addresses.

Lemma connection_workers_listen_apart_witness :
  exists g' w',
    work_setup (Some 3232235521) 80 queues_ok 2 0 false no_workers boot =
      Done (1, g') w' /\
    c_pthread_create 2
      (tcp_thread {| filter := ONE_TO_ONE;
                     saddr := {| sin_addr := 3232235523; sin_port := 80 |};
                     whoami := 1; split := false |})
      ∈ since boot w'.
Proof.
  destruct (connection_workers_listen_apart 80 queues_ok (Some 3232235521) 2 0
              false no_workers boot 0 1)
    as (status & g' & w' & E & Hst & _ & Hj & _); [lia | cbn; lia |].
  rewrite (Hst (or_introl eq_refl)) in E.
  exists g', w'. split; [exact E | exact Hj].
Defined.
